(** * serverless-lab: the asynchronous mutation pipeline of handler.js

    A shallow embedding of the Lambda handlers of [handler.js] (the
    queue-backed revision of the module: producers publish Intents to SQS,
    [processSqsMessages] applies them to DynamoDB) together with a model of
    the two collaborators the handlers talk to, the DynamoDB DocumentClient
    and the SQS client.

    Conventions of the embedding:
    - JavaScript values that travel through request bodies, queue messages
      and table items are JSON scalars or [undefined] ([JsVal]); a JSON
      object is a finite map from property names to values, a missing
      property reads as [undefined].
    - Every handler is a computation over an explicit [World]: the two
      tables, the queue, the warning/error console, the schedule of
      collaborator faults, and the counters of the clock and of the UUID
      generator.  Informational [console.log] traces are not recorded; a
      conversion to string that such a trace performs is, where it can
      throw.
    - A JavaScript exception is the [Throw] outcome of a computation. *)

From Stdlib Require Import ZArith.
From stdpp Require Import gmap strings list fin_maps pretty.

Open Scope string_scope.

(** ** JavaScript values *)

Inductive JsVal : Type :=
| JUndefined
| JNull
| JBool (b : bool)
| JNum (n : Z)
| JStr (s : string).

#[global] Instance JsVal_eq_dec : EqDecision JsVal.
Proof. solve_decision. Defined.

#[global] Instance JsVal_inhabited : Inhabited JsVal := populate JUndefined.

(** ToBoolean: what [if (v)], [!v] and [a || b] test. *)
Definition truthy (v : JsVal) : bool :=
  match v with
  | JUndefined | JNull => false
  | JBool b => b
  | JNum n => negb (n =? 0)%Z
  | JStr s => negb (String.eqb s "")
  end.

(** [!v] *)
Definition missing (v : JsVal) : bool := negb (truthy v).

(** [o.k] on a plain object. *)
Definition prop (o : gmap string JsVal) (k : string) : JsVal :=
  default JUndefined (o !! k).

(** An object literal [{k1: v1, ..., kn: vn}] as it leaves the process:
    both [JSON.stringify] and the DocumentClient marshaller omit the
    properties whose value is [undefined]. *)
Fixpoint object (fields : list (string * JsVal)) : gmap string JsVal :=
  match fields with
  | [] => ∅
  | (k, v) :: rest =>
      match v with
      | JUndefined => object rest
      | _ => <[k := v]> (object rest)
      end
  end.

(** A JSON value of nesting depth at most one: the type of the two
    properties of a queue message, [operation] and [data]. *)
Inductive Json : Type :=
| JScalar (v : JsVal)
| JObject (o : gmap string JsVal).

(** A body text, classified by what [JSON.parse] makes of it: a syntax
    error, a scalar, or an object with properties of type [F]. *)
Inductive Doc (F : Type) : Type :=
| Whole (v : JsVal)
| Fields (o : gmap string F).
Arguments Whole {F} v.
Arguments Fields {F} o.

Inductive Body (F : Type) : Type :=
| Garbled
| Text (d : Doc F).
Arguments Garbled {F}.
Arguments Text {F} d.

(** ** Exceptions, console, responses *)

Inductive Exn : Type :=
| SyntaxError
| TypeError
| ServiceError (code : string).

#[global] Instance Exn_eq_dec : EqDecision Exn.
Proof. solve_decision. Defined.

Definition ValidationException : Exn := ServiceError "ValidationException".

Inductive LogEntry : Type :=
| WarnUnknownOperation (operation : Json)
| ErrorSqsRecord (body : Body Json) (error : Exn)
| ErrorHandler (handler : string) (error : Exn).

Inductive Payload : Type :=
| PMessage
| PError (error : Exn)
| POrgId (orgId : JsVal)
| PUserId (userId : JsVal)
| PUser (item : gmap string JsVal)
| PDone.

Record Response : Type := mkResponse {
  statusCode : nat;
  payload : Payload
}.

(** [buildResponse(statusCode, body)]; the human-readable [message] text
    of the body is not part of the model. *)
Definition buildResponse (code : nat) (body : Payload) : Response :=
  mkResponse code body.

(** ** The world the handlers run in *)

Inductive TableName : Type := ORGANIZATIONS_TABLE | USERS_TABLE.

Record World : Type := mkWorld {
  organizations : gmap string (gmap string JsVal);
  users : gmap string (gmap string JsVal);
  queue : list (Body Json);
  console : list LogEntry;
  faults : list (option Exn);
  clock : nat;
  entropy : nat
}.

Definition table (t : TableName) (w : World) : gmap string (gmap string JsVal) :=
  match t with
  | ORGANIZATIONS_TABLE => organizations w
  | USERS_TABLE => users w
  end.

Definition set_table (t : TableName) (m : gmap string (gmap string JsVal))
    (w : World) : World :=
  match t with
  | ORGANIZATIONS_TABLE =>
      mkWorld m (users w) (queue w) (console w) (faults w) (clock w) (entropy w)
  | USERS_TABLE =>
      mkWorld (organizations w) m (queue w) (console w) (faults w) (clock w) (entropy w)
  end.

Definition set_queue (q : list (Body Json)) (w : World) : World :=
  mkWorld (organizations w) (users w) q (console w) (faults w) (clock w) (entropy w).

Definition set_console (c : list LogEntry) (w : World) : World :=
  mkWorld (organizations w) (users w) (queue w) c (faults w) (clock w) (entropy w).

Definition set_faults (f : list (option Exn)) (w : World) : World :=
  mkWorld (organizations w) (users w) (queue w) (console w) f (clock w) (entropy w).

Definition set_clock (n : nat) (w : World) : World :=
  mkWorld (organizations w) (users w) (queue w) (console w) (faults w) n (entropy w).

Definition set_entropy (n : nat) (w : World) : World :=
  mkWorld (organizations w) (users w) (queue w) (console w) (faults w) (clock w) n.

(** The persistent contents of the Record Store. *)
Definition tables (w : World) :
    gmap string (gmap string JsVal) * gmap string (gmap string JsVal) :=
  (organizations w, users w).

(** ** Computations that may throw *)

Inductive Result (A : Type) : Type :=
| Ok (a : A)
| Throw (e : Exn).
Arguments Ok {A} a.
Arguments Throw {A} e.

Definition M (A : Type) : Type := World -> Result A * World.

Definition ret {A} (a : A) : M A := fun w => (Ok a, w).

Definition throw {A} (e : Exn) : M A := fun w => (Throw e, w).

Definition bind {A B} (m : M A) (k : A -> M B) : M B :=
  fun w =>
    match m w with
    | (Ok a, w') => k a w'
    | (Throw e, w') => (Throw e, w')
    end.

(** [try { body } catch (error) { handler }] *)
Definition try_catch {A} (body : M A) (handler : Exn -> M A) : M A :=
  fun w =>
    match body w with
    | (Ok a, w') => (Ok a, w')
    | (Throw e, w') => handler e w'
    end.

Declare Scope js_scope.
Delimit Scope js_scope with js.
Notation "'let*' x := m 'in' k" := (bind m (fun x => k))
  (at level 10, x name, m at level 100, k at level 200) : js_scope.
Notation "m ;;; k" := (bind m (fun _ => k))
  (at level 100, k at level 200, right associativity) : js_scope.
Open Scope js_scope.

(** [for (const x of xs) { f(x) }]: stops at the first exception. *)
Fixpoint forEach {A} (f : A -> M unit) (xs : list A) : M unit :=
  match xs with
  | [] => ret tt
  | x :: rest => f x ;;; forEach f rest
  end.

Definition console_warn (entry : LogEntry) : M unit :=
  fun w => (Ok tt, set_console (console w ++ [entry]) w).

Definition console_error (entry : LogEntry) : M unit :=
  fun w => (Ok tt, set_console (console w ++ [entry]) w).

(** ** Language-level operations *)

(** [JSON.parse(text)] *)
Definition JSON_parse {F} (text : Body F) : M (Doc F) :=
  match text with
  | Garbled => throw SyntaxError
  | Text d => ret d
  end.

(** [const { a, b, ... } = value]: a [TypeError] on [null], every
    property [undefined] on another scalar. *)
Definition destructure {F} (undef : F) (value : Doc F) : M (string -> F) :=
  match value with
  | Whole JNull | Whole JUndefined => throw TypeError
  | Whole _ => ret (fun _ => undef)
  | Fields o => ret (fun k => default undef (o !! k))
  end.

(** [data.k] where [data] is a property of a parsed message. *)
Definition member (data : Json) (k : string) : M JsVal :=
  match data with
  | JScalar JNull | JScalar JUndefined => throw TypeError
  | JScalar _ => ret JUndefined
  | JObject o => ret (prop o k)
  end.

(** [operation === label], as the [switch] compares. *)
Definition is_case (operation : Json) (label : string) : bool :=
  match operation with
  | JScalar (JStr s) => String.eqb s label
  | _ => false
  end.

(** Whether ToString succeeds on a parsed JSON value.  Every scalar has a
    string form, and a plain object has the one its inherited [toString]
    gives; an object with a property of its own named [toString] has none:
    nothing [JSON.parse] yields is callable, and the [valueOf] it inherits
    answers the object itself. *)
Definition hasStringForm (v : Json) : bool :=
  match v with
  | JScalar _ => true
  | JObject o => negb (bool_decide (is_Some (o !! "toString")))
  end.

(** [`${v}`]: the conversion a template literal performs on [v]; the
    text it gives is not part of the model. *)
Definition ToString (v : Json) : M unit :=
  if hasStringForm v then ret tt else throw TypeError.

(** [JSON.stringify({ operation: op, data: { ...fields } })] *)
Definition stringify_message (op : string) (fields : list (string * JsVal)) :
    Body Json :=
  Text (Fields (<["operation" := JScalar (JStr op)]>
                  (<["data" := JObject (object fields)]> ∅))).

(** ** The collaborators: DynamoDB DocumentClient and SQS

    A call to either service first consults the fault schedule of the
    world: [Some e] makes the call reject with [e] and leaves every table
    and the queue as they were; [None], or an exhausted schedule, lets the
    call through.  Requests that the service cannot accept whatever the
    weather (a key that is not a non-empty string, an expression value
    that is [undefined]) reject with a [ValidationException]. *)

Definition service {A} (call : M A) : M A :=
  fun w =>
    match faults w with
    | Some e :: rest => (Throw e, set_faults rest w)
    | None :: rest => call (set_faults rest w)
    | [] => call w
    end.

(** Key schema of serverless.yml: both hash keys, and the hash key of
    [OrgId-index], have attribute type S. *)
Definition keyAttribute (t : TableName) : string :=
  match t with
  | ORGANIZATIONS_TABLE => "orgId"
  | USERS_TABLE => "userId"
  end.

Definition indexAttribute (t : TableName) : option string :=
  match t with
  | ORGANIZATIONS_TABLE => None
  | USERS_TABLE => Some "orgId"
  end.

Definition key_string (v : JsVal) : option string :=
  match v with
  | JStr s => if String.eqb s "" then None else Some s
  | _ => None
  end.

Definition index_key_ok (t : TableName) (item : gmap string JsVal) : bool :=
  match indexAttribute t with
  | None => true
  | Some a =>
      match item !! a with
      | None => true
      | Some v => bool_decide (is_Some (key_string v))
      end
  end.

(** [dynamoDb.get({ TableName, Key }).promise()], giving [result.Item]. *)
Definition dynamoDb_get (t : TableName) (key : JsVal) :
    M (option (gmap string JsVal)) :=
  service
    match key_string key with
    | Some k => fun w => (Ok (table t w !! k), w)
    | None => throw ValidationException
    end.

(** [dynamoDb.put({ TableName, Item }).promise()]: the item replaces
    whatever the table held under its key. *)
Definition dynamoDb_put (t : TableName) (Item : gmap string JsVal) : M unit :=
  service
    match key_string (prop Item (keyAttribute t)) with
    | Some k =>
        if index_key_ok t Item
        then fun w => (Ok tt, set_table t (<[k := Item]> (table t w)) w)
        else throw ValidationException
    | None => throw ValidationException
    end.

(** The item an [UpdateItem] works on when the key is not in the table. *)
Definition key_only (t : TableName) (k : string) : gmap string JsVal :=
  {[ keyAttribute t := JStr k ]}.

(** [dynamoDb.update({ TableName, Key, UpdateExpression: 'SET a1 = :v1,
    ...', ExpressionAttributeValues }).promise()]: [sets] lists the
    [(attribute, value)] pairs of the SET expression.  The named attributes
    are assigned in the item under the key, which is created when absent;
    the other attributes of the item stay.  (The clauses the handlers
    build never name a key attribute of the table or of its index.) *)
Definition dynamoDb_update (t : TableName) (key : JsVal)
    (sets : list (string * JsVal)) : M unit :=
  service
    match key_string key with
    | Some k =>
        if bool_decide (JUndefined ∈ sets.*2)
        then throw ValidationException
        else fun w =>
          (Ok tt,
           set_table t
             (<[k := list_to_map sets ∪ default (key_only t k) (table t w !! k)]>
                (table t w)) w)
    | None => throw ValidationException
    end.

(** [dynamoDb.scan({ TableName, FilterExpression: '#a = :v' })], giving
    [result.Items]. *)
Definition dynamoDb_scan (t : TableName) (a : string) (v : JsVal) :
    M (list (gmap string JsVal)) :=
  service
    (fun w =>
       (Ok (filter (fun item => item !! a = Some v) (map_to_list (table t w)).*2),
        w)).

(** [dynamoDb.query({ TableName: USERS_TABLE, IndexName: 'OrgId-index',
    KeyConditionExpression: 'orgId = :orgId', FilterExpression:
    'email = :email' })], giving [queryResult.Items]. *)
Definition dynamoDb_query_OrgId_index (orgId email : JsVal) :
    M (list (gmap string JsVal)) :=
  service
    match key_string orgId with
    | Some o =>
        fun w =>
          (Ok (filter (fun item => item !! "orgId" = Some (JStr o)
                                   ∧ item !! "email" = Some email)
                 (map_to_list (users w)).*2),
           w)
    | None => throw ValidationException
    end.

(** [sqs.sendMessage({ QueueUrl, MessageBody }).promise()] *)
Definition sqs_sendMessage (MessageBody : Body Json) : M unit :=
  service (fun w => (Ok tt, set_queue (queue w ++ [MessageBody]) w)).

Section Runtime.

(** The n-th identifier the UUID generator hands out, and the n-th reading
    of the wall clock in ISO-8601 form. *)
Variable uuid_stream : nat -> string.
Variable iso_stream : nat -> string.

(** [uuidv4()] *)
Definition uuidv4 : M JsVal :=
  fun w => (Ok (JStr (uuid_stream (entropy w))), set_entropy (S (entropy w)) w).

(** [new Date().toISOString()] *)
Definition toISOString : M JsVal :=
  fun w => (Ok (JStr (iso_stream (clock w))), set_clock (S (clock w)) w).

(** ** The HTTP producers *)

Record HttpEvent : Type := mkEvent {
  pathParameters : gmap string string;
  method : string;
  body : Body JsVal
}.

Definition pathParameter (event : HttpEvent) (k : string) : JsVal :=
  from_option JStr JUndefined (pathParameters event !! k).

(** The [catch] block shared by the HTTP handlers. *)
Definition internalError (handler : string) (error : Exn) : M Response :=
  console_error (ErrorHandler handler error) ;;;
  ret (buildResponse 500 (PError error)).

(** 1. POST /organizations *)
Definition createOrganization (event : HttpEvent) : M Response :=
  try_catch
    (let* data := JSON_parse (body event) in
     let* fields := destructure JUndefined data in
     let name := fields "name" in
     let description := fields "description" in
     if missing name || missing description
     then ret (buildResponse 400 PMessage)
     else
       let* Items := dynamoDb_scan ORGANIZATIONS_TABLE "name" name in
       if (0 <? length Items)%nat
       then ret (buildResponse 409 PMessage)
       else
         let* orgId := uuidv4 in
         let* createdAt := toISOString in
         let* updatedAt := toISOString in
         sqs_sendMessage
           (stringify_message "createOrganization"
              [("orgId", orgId); ("name", name); ("description", description);
               ("createdAt", createdAt); ("updatedAt", updatedAt)]) ;;;
         ret (buildResponse 202 (POrgId orgId)))
    (internalError "createOrganization").

(** [Items.length > 0 && (method === 'POST' ||
     (method === 'PUT' && Items[0].userId !== newUserId))] *)
Definition emailTaken (Items : list (gmap string JsVal)) (httpMethod : string)
    (newUserId : JsVal) : bool :=
  match Items with
  | [] => false
  | existingUser :: _ =>
      String.eqb httpMethod "POST"
      || (String.eqb httpMethod "PUT"
          && negb (bool_decide (prop existingUser "userId" = newUserId)))
  end.

(** 2. POST/PUT /organizations/{orgId}/users *)
Definition createOrUpdateUser (event : HttpEvent) : M Response :=
  try_catch
    (let orgId := pathParameter event "orgId" in
     let* data := JSON_parse (body event) in
     let* fields := destructure JUndefined data in
     let userId := fields "userId" in
     let name := fields "name" in
     let email := fields "email" in
     if missing orgId || missing name || missing email
     then ret (buildResponse 400 PMessage)
     else
       let* orgResult := dynamoDb_get ORGANIZATIONS_TABLE orgId in
       match orgResult with
       | None => ret (buildResponse 404 PMessage)
       | Some _ =>
           let* newUserId := (if truthy userId then ret userId else uuidv4) in
           let* Items := dynamoDb_query_OrgId_index orgId email in
           if emailTaken Items (method event) newUserId
           then ret (buildResponse 409 PMessage)
           else
             let* createdAt := toISOString in
             let* updatedAt := toISOString in
             sqs_sendMessage
               (stringify_message
                  (if String.eqb (method event) "POST"
                   then "createUser" else "updateUser")
                  [("orgId", orgId); ("userId", newUserId); ("name", name);
                   ("email", email); ("createdAt", createdAt);
                   ("updatedAt", updatedAt)]) ;;;
             ret (buildResponse 202 (PUserId newUserId))
       end)
    (internalError "createOrUpdateUser").

(** 3. PUT /organizations *)
Definition updateOrganization (event : HttpEvent) : M Response :=
  try_catch
    (let* data := JSON_parse (body event) in
     let* fields := destructure JUndefined data in
     let orgId := fields "orgId" in
     let name := fields "name" in
     let description := fields "description" in
     if missing orgId
     then ret (buildResponse 400 PMessage)
     else if missing name && missing description
     then ret (buildResponse 400 PMessage)
     else
       let* orgResult := dynamoDb_get ORGANIZATIONS_TABLE orgId in
       match orgResult with
       | None => ret (buildResponse 404 PMessage)
       | Some _ =>
           let* updatedAt := toISOString in
           sqs_sendMessage
             (stringify_message "updateOrganization"
                [("orgId", orgId); ("name", name); ("description", description);
                 ("updatedAt", updatedAt)]) ;;;
           ret (buildResponse 202 (POrgId orgId))
       end)
    (internalError "updateOrganization").

(** 5. GET /organizations/{orgId}/users/{userId} *)
Definition getUser (event : HttpEvent) : M Response :=
  try_catch
    (let orgId := pathParameter event "orgId" in
     let userId := pathParameter event "userId" in
     if missing orgId || missing userId
     then ret (buildResponse 400 PMessage)
     else
       let* result := dynamoDb_get USERS_TABLE userId in
       match result with
       | None => ret (buildResponse 404 PMessage)
       | Some Item =>
           if negb (bool_decide (prop Item "orgId" = orgId))
           then ret (buildResponse 404 PMessage)
           else ret (buildResponse 200 (PUser Item))
       end)
    (internalError "getUser").

End Runtime.

(** ** The consumer *)

(** The [SET] clauses the two update cases assemble: an assignment for
    each of the two optional fields that is truthy, then [updatedAt]. *)
Definition updateExpression (first second : string) (v1 v2 updatedAt : JsVal) :
    list (string * JsVal) :=
  (if truthy v1 then [(first, v1)] else [])
  ++ (if truthy v2 then [(second, v2)] else [])
  ++ [("updatedAt", updatedAt)].

(** The body of the [try] block of [processSqsMessages]: the message is
    parsed and taken apart, [operation] is converted to string for the
    trace that opens the block, and the [switch] dispatches on it; the
    warning of the [default] branch converts it once more. *)
Definition applyRecord (recordBody : Body Json) : M unit :=
  let* messageBody := JSON_parse recordBody in
  let* fields := destructure (JScalar JUndefined) messageBody in
  let operation := fields "operation" in
  let data := fields "data" in
  ToString operation ;;;
  if is_case operation "createOrganization" then
    let* orgId := member data "orgId" in
    let* name := member data "name" in
    let* description := member data "description" in
    let* createdAt := member data "createdAt" in
    let* updatedAt := member data "updatedAt" in
    dynamoDb_put ORGANIZATIONS_TABLE
      (object [("orgId", orgId); ("name", name); ("description", description);
               ("createdAt", createdAt); ("updatedAt", updatedAt)])
  else if is_case operation "updateOrganization" then
    let* name := member data "name" in
    let* description := member data "description" in
    let* updatedAt := member data "updatedAt" in
    let* orgId := member data "orgId" in
    dynamoDb_update ORGANIZATIONS_TABLE orgId
      (updateExpression "name" "description" name description updatedAt)
  else if is_case operation "createUser" then
    let* userId := member data "userId" in
    let* orgId := member data "orgId" in
    let* name := member data "name" in
    let* email := member data "email" in
    let* createdAt := member data "createdAt" in
    let* updatedAt := member data "updatedAt" in
    dynamoDb_put USERS_TABLE
      (object [("userId", userId); ("orgId", orgId); ("name", name);
               ("email", email); ("createdAt", createdAt);
               ("updatedAt", updatedAt)])
  else if is_case operation "updateUser" then
    let* name := member data "name" in
    let* email := member data "email" in
    let* updatedAt := member data "updatedAt" in
    let* userId := member data "userId" in
    dynamoDb_update USERS_TABLE userId
      (updateExpression "name" "email" name email updatedAt)
  else
    ToString operation ;;;
    console_warn (WarnUnknownOperation operation).

(** One turn of the loop: the [try] block and its [catch], which logs
    and rethrows. *)
Definition processRecord (recordBody : Body Json) : M unit :=
  try_catch (applyRecord recordBody)
    (fun error =>
       console_error (ErrorSqsRecord recordBody error) ;;; throw error).

(** 8. The SQS consumer; [Records] are the bodies of [event.Records]. *)
Definition processSqsMessages (Records : list (Body Json)) : M Response :=
  forEach processRecord Records ;;;
  ret (buildResponse 200 PDone).

(** ** Vocabulary of the statements *)

(** The operation name of each create kind, by the table it writes, and
    the attributes of the item it puts. *)
Definition createOperation (t : TableName) : string :=
  match t with
  | ORGANIZATIONS_TABLE => "createOrganization"
  | USERS_TABLE => "createUser"
  end.

Definition createAttributes (t : TableName) : list string :=
  match t with
  | ORGANIZATIONS_TABLE =>
      ["orgId"; "name"; "description"; "createdAt"; "updatedAt"]
  | USERS_TABLE =>
      ["userId"; "orgId"; "name"; "email"; "createdAt"; "updatedAt"]
  end.

(** The object literal with the properties [attrs] of [o]. *)
Definition pick (attrs : list string) (o : gmap string JsVal) :
    gmap string JsVal :=
  object ((fun a => (a, prop o a)) <$> attrs).

(** The operation name of each update kind, and the optional field it
    may set besides [name]. *)
Definition updateOperation (t : TableName) : string :=
  match t with
  | ORGANIZATIONS_TABLE => "updateOrganization"
  | USERS_TABLE => "updateUser"
  end.

Definition secondField (t : TableName) : string :=
  match t with
  | ORGANIZATIONS_TABLE => "description"
  | USERS_TABLE => "email"
  end.

(** The SET clauses the consumer derives from the [data] of an update. *)
Definition updateClauses (t : TableName) (o : gmap string JsVal) :
    list (string * JsVal) :=
  updateExpression "name" (secondField t)
    (prop o "name") (prop o (secondField t)) (prop o "updatedAt").

(** Attribute [a] of the record stored under key [k], if any. *)
Definition attribute (t : TableName) (w : World) (k a : string) :
    option JsVal :=
  table t w !! k ≫= (fun item => item !! a).

(** The four labels of the [switch] of the consumer. *)
Definition recognized (operation : Json) : bool :=
  is_case operation "createOrganization"
  || is_case operation "updateOrganization"
  || is_case operation "createUser"
  || is_case operation "updateUser".

(** The [operation] property of a parsed message. *)
Definition operationOf (m : gmap string Json) : Json :=
  default (JScalar JUndefined) (m !! "operation").

(** A queue message in the shape the producers publish: the parsed
    object, and the body text that carries it. *)
Definition message (op : string) (data : gmap string JsVal) :
    gmap string Json :=
  <["operation" := JScalar (JStr op)]> (<["data" := JObject data]> ∅).

Definition intent (op : string) (data : gmap string JsVal) : Body Json :=
  Text (Fields (message op data)).

(** What the first two statements of a producer make of the request:
    [JSON.parse(event.body)] throws on a body that is absent or is no JSON
    text, taking the fields apart throws on [null], and every field of
    another scalar reads as [undefined]. *)
Definition requestFields (event : HttpEvent) : Exn + gmap string JsVal :=
  match body event with
  | Garbled => inl SyntaxError
  | Text (Whole JNull) | Text (Whole JUndefined) => inl TypeError
  | Text (Whole _) => inr ∅
  | Text (Fields o) => inr o
  end.

(** An empty store with nothing queued, logged or scheduled to fail. *)
Definition emptyWorld : World := mkWorld ∅ ∅ [] [] [] 0 0.

(** A computation that leaves a component of the world as it found it. *)
Definition keeps {X A} (view : World -> X) (m : M A) : Prop :=
  ∀ w, view (m w).2 = view w.

(** A computation that, when it throws, has left the tables alone. *)
Definition atomic {A} (m : M A) : Prop :=
  ∀ w, match m w with
       | (Throw _, w') => tables w' = tables w
       | _ => True
       end.

(** Scoped uniqueness of e-mail addresses: two stored Users of one
    Organization that hold the same [email] are the same record. *)
Definition emailsUniquePerOrganization
    (us : gmap string (gmap string JsVal)) : Prop :=
  ∀ k1 k2 u1 u2 org email,
    us !! k1 = Some u1 → us !! k2 = Some u2 →
    u1 !! "orgId" = Some org → u2 !! "orgId" = Some org →
    u1 !! "email" = Some email → u2 !! "email" = Some email →
    k1 = k2.

(** Every stored User carries its key in its [userId] attribute. *)
Definition keyed (us : gmap string (gmap string JsVal)) : Prop :=
  ∀ k u, us !! k = Some u → u !! "userId" = Some (JStr k).

(** One mutation carried to completion: the producer handles the request,
    then the consumer is handed everything the queue holds, and the queue
    is emptied, before anything else happens. *)
Definition submitAndApply (handler : HttpEvent -> M Response)
    (event : HttpEvent) : M Response :=
  let* response := handler event in
  fun w =>
    match processSqsMessages (queue w) (set_queue [] w) with
    | (Ok _, w') => (Ok response, w')
    | (Throw e, w') => (Throw e, w')
    end.

(** *** Sample data for the concrete runs *)

Definition acmeData : gmap string JsVal :=
  object [("orgId", JStr "o1"); ("name", JStr "Acme");
          ("description", JStr "D");
          ("createdAt", JStr "2024-01-01T00:00:00Z");
          ("updatedAt", JStr "2024-01-01T00:00:00Z")].

Definition acmeRedescribed : gmap string JsVal :=
  object [("orgId", JStr "o1"); ("description", JStr "D2");
          ("updatedAt", JStr "2024-02-02T00:00:00Z")].

Definition annData : gmap string JsVal :=
  object [("userId", JStr "u1"); ("orgId", JStr "o1"); ("name", JStr "Ann");
          ("email", JStr "ann@acme.test");
          ("createdAt", JStr "2024-01-01T00:00:00Z");
          ("updatedAt", JStr "2024-01-01T00:00:00Z")].

Definition annRenamed : gmap string JsVal :=
  object [("userId", JStr "u1"); ("orgId", JStr "o9"); ("name", JStr "Anna");
          ("email", JStr "anna@acme.test");
          ("createdAt", JStr "2024-03-03T00:00:00Z");
          ("updatedAt", JStr "2024-03-03T00:00:01Z")].

(** A store with the Organization [o1] and its User [u1]. *)
Definition acmeWorld : World :=
  mkWorld {["o1" := acmeData]} {["u1" := annData]} [] [] [] 0 0.

(** A store with two Organizations; both Users belong to [o2]. *)
Definition twoOrganizations : World :=
  mkWorld
    {["o1" := acmeData;
      "o2" := object [("orgId", JStr "o2"); ("name", JStr "Bolt");
                      ("description", JStr "B")]]}
    {["u1" := object [("userId", JStr "u1"); ("orgId", JStr "o2");
                      ("name", JStr "Ann"); ("email", JStr "ann@bolt.test")];
      "u2" := object [("userId", JStr "u2"); ("orgId", JStr "o2");
                      ("name", JStr "Bob"); ("email", JStr "bob@bolt.test")]]}
    [] [] [] 0 0.

(** PUT /organizations/o1/users naming the User [u2] of [o2] and the
    e-mail address of [u1]. *)
Definition crossOrganizationPut : HttpEvent :=
  mkEvent {["orgId" := "o1"]} "PUT"
    (Text (Fields (object [("userId", JStr "u2"); ("name", JStr "Bob");
                           ("email", JStr "ann@bolt.test")]))).

(** PUT /organizations/o1/users naming a User the store does not hold
    and the e-mail address of [u1]. *)
Definition ghostPut : HttpEvent :=
  mkEvent {["orgId" := "o1"]} "PUT"
    (Text (Fields (object [("userId", JStr "ghost"); ("name", JStr "Zed");
                           ("email", JStr "ann@acme.test")]))).

(** POST /organizations for Acme. *)
Definition acmeRequest : gmap string JsVal :=
  object [("name", JStr "Acme"); ("description", JStr "D")].

Definition postAcme : HttpEvent := mkEvent ∅ "POST" (Text (Fields acmeRequest)).

(** PUT /organizations changing the description of [o1]. *)
Definition redescribeRequest : gmap string JsVal :=
  object [("orgId", JStr "o1"); ("description", JStr "D2")].

Definition putAcme : HttpEvent :=
  mkEvent ∅ "PUT" (Text (Fields redescribeRequest)).

(** GET /organizations/o1/users/u1 *)
Definition getAnn : HttpEvent :=
  mkEvent {["orgId" := "o1"; "userId" := "u1"]} "GET" Garbled.



(** POST /organizations with the body [null], and with no body. *)
Definition postNull : HttpEvent := mkEvent ∅ "POST" (Text (Whole JNull)).

Definition postNothing : HttpEvent := mkEvent ∅ "POST" Garbled.







(** A throttled store: the second service call is rejected. *)
Definition throttled : World :=
  mkWorld ∅ ∅ [] [] [None; Some (ServiceError "ThrottlingException")] 0 0.

(** Sample generators for the concrete runs below. *)
Definition sampleUuid (n : nat) : string := "uuid-" +:+ pretty n.
Definition sampleIso (n : nat) : string := "2024-01-01T00:00:0" +:+ pretty n +:+ "Z".

(** ** The handlers that answer with records

    The read handlers are the same in both revisions of the module; their
    responses carry whole records or lists of records. *)

Inductive RecordBody : Type :=
| BMessage
| BFailure (error : Exn)
| BOrganization (withMessage : bool) (item : gmap string JsVal)
| BOrganizations (withMessage : bool) (items : list (gmap string JsVal))
| BUser (withMessage : bool) (item : gmap string JsVal)
| BUsers (withMessage : bool) (items : list (gmap string JsVal)).

Record Reply : Type := mkReply {
  replyStatus : nat;
  replyBody : RecordBody
}.

(** [buildResponse(statusCode, body)] for a body with an entity field;
    [withMessage] tells whether the body also has a [message]. *)
Definition buildReply (code : nat) (body : RecordBody) : Reply :=
  mkReply code body.

(** The [catch] block of these handlers. *)
Definition internalFailure (handler : string) (error : Exn) : M Reply :=
  console_error (ErrorHandler handler error) ;;;
  ret (buildReply 500 (BFailure error)).

(** [dynamoDb.scan({ TableName })], giving [result.Items]. *)
Definition dynamoDb_scan_all (t : TableName) : M (list (gmap string JsVal)) :=
  service (fun w => (Ok (map_to_list (table t w)).*2, w)).

(** [dynamoDb.query({ TableName: USERS_TABLE, IndexName: 'OrgId-index',
    KeyConditionExpression: 'orgId = :orgId' })], giving [result.Items]. *)
Definition dynamoDb_query_OrgId_index_all (orgId : JsVal) :
    M (list (gmap string JsVal)) :=
  service
    match key_string orgId with
    | Some o =>
        fun w =>
          (Ok (filter (fun item => item !! "orgId" = Some (JStr o))
                 (map_to_list (users w)).*2),
           w)
    | None => throw ValidationException
    end.

(** [dynamoDb.update({ ..., ReturnValues: 'ALL_NEW' })], giving
    [Attributes]: the item as the update leaves it. *)
Definition dynamoDb_update_ALL_NEW (t : TableName) (key : JsVal)
    (sets : list (string * JsVal)) : M (gmap string JsVal) :=
  service
    match key_string key with
    | Some k =>
        if bool_decide (JUndefined ∈ sets.*2)
        then throw ValidationException
        else fun w =>
          let Attributes :=
            list_to_map sets ∪ default (key_only t k) (table t w !! k) in
          (Ok Attributes, set_table t (<[k := Attributes]> (table t w)) w)
    | None => throw ValidationException
    end.

(** 4. GET /organizations/{orgId} *)
Definition getOrganization (event : HttpEvent) : M Reply :=
  try_catch
    (let orgId := pathParameter event "orgId" in
     if missing orgId
     then ret (buildReply 400 BMessage)
     else
       let* result := dynamoDb_get ORGANIZATIONS_TABLE orgId in
       match result with
       | None => ret (buildReply 404 BMessage)
       | Some Item => ret (buildReply 200 (BOrganization false Item))
       end)
    (internalFailure "getOrganization").

(** 6. GET /organizations *)
Definition getAllOrganizations (event : HttpEvent) : M Reply :=
  try_catch
    (let* Items := dynamoDb_scan_all ORGANIZATIONS_TABLE in
     if (length Items =? 0)%nat
     then ret (buildReply 200 (BOrganizations true []))
     else ret (buildReply 200 (BOrganizations false Items)))
    (internalFailure "getAllOrganizations").

(** 7. GET /organizations/{orgId}/users *)
Definition getAllUsersByOrganization (event : HttpEvent) : M Reply :=
  try_catch
    (let orgId := pathParameter event "orgId" in
     if missing orgId
     then ret (buildReply 400 BMessage)
     else
       let* orgResult := dynamoDb_get ORGANIZATIONS_TABLE orgId in
       match orgResult with
       | None => ret (buildReply 404 BMessage)
       | Some _ =>
           let* Items := dynamoDb_query_OrgId_index_all orgId in
           if (length Items =? 0)%nat
           then ret (buildReply 200 (BUsers true []))
           else ret (buildReply 200 (BUsers false Items))
       end)
    (internalFailure "getAllUsersByOrganization").

(** ** The synchronous revision of the mutating handlers

    The first revision of the module (before the queue): the handlers
    write to the store themselves and answer 201 or 200 with the record. *)

Module Sync.
Section Runtime.

Variable uuid_stream : nat -> string.
Variable iso_stream : nat -> string.

(** 1. POST /organizations *)
Definition createOrganization (event : HttpEvent) : M Reply :=
  try_catch
    (let* data := JSON_parse (body event) in
     let* fields := destructure JUndefined data in
     let name := fields "name" in
     let description := fields "description" in
     if missing name || missing description
     then ret (buildReply 400 BMessage)
     else
       let* Items := dynamoDb_scan ORGANIZATIONS_TABLE "name" name in
       if (0 <? length Items)%nat
       then ret (buildReply 409 BMessage)
       else
         let* orgId := uuidv4 uuid_stream in
         let* createdAt := toISOString iso_stream in
         let* updatedAt := toISOString iso_stream in
         let newOrganization :=
           object [("orgId", orgId); ("name", name);
                   ("description", description); ("createdAt", createdAt);
                   ("updatedAt", updatedAt)] in
         dynamoDb_put ORGANIZATIONS_TABLE newOrganization ;;;
         ret (buildReply 201 (BOrganization true newOrganization)))
    (internalFailure "createOrganization").

(** 2. POST/PUT /organizations/{orgId}/users *)
Definition createOrUpdateUser (event : HttpEvent) : M Reply :=
  try_catch
    (let orgId := pathParameter event "orgId" in
     let* data := JSON_parse (body event) in
     let* fields := destructure JUndefined data in
     let name := fields "name" in
     let email := fields "email" in
     let userId := fields "userId" in
     if missing orgId || missing name || missing email
     then ret (buildReply 400 BMessage)
     else
       let* orgResult := dynamoDb_get ORGANIZATIONS_TABLE orgId in
       match orgResult with
       | None => ret (buildReply 404 BMessage)
       | Some _ =>
           if String.eqb (method event) "PUT"
           then
             if missing userId
             then ret (buildReply 400 BMessage)
             else
               let* existingUser := dynamoDb_get USERS_TABLE userId in
               match existingUser with
               | None => ret (buildReply 404 BMessage)
               | Some Item =>
                   if negb (bool_decide (prop Item "orgId" = orgId))
                   then ret (buildReply 404 BMessage)
                   else
                     let* updatedAt := toISOString iso_stream in
                     let* Attributes :=
                       dynamoDb_update_ALL_NEW USERS_TABLE userId
                         [("name", name); ("email", email);
                          ("updatedAt", updatedAt)] in
                     ret (buildReply 200 (BUser true Attributes))
               end
           else
             let* Items := dynamoDb_query_OrgId_index orgId email in
             if (0 <? length Items)%nat
             then ret (buildReply 409 BMessage)
             else
               let* newUserId := uuidv4 uuid_stream in
               let* createdAt := toISOString iso_stream in
               let* updatedAt := toISOString iso_stream in
               let newUser :=
                 object [("userId", newUserId); ("orgId", orgId);
                         ("name", name); ("email", email);
                         ("createdAt", createdAt); ("updatedAt", updatedAt)] in
               dynamoDb_put USERS_TABLE newUser ;;;
               ret (buildReply 201 (BUser true newUser))
       end)
    (internalFailure "createOrUpdateUser").

(** 3. PUT /organizations *)
Definition updateOrganization (event : HttpEvent) : M Reply :=
  try_catch
    (let* data := JSON_parse (body event) in
     let* fields := destructure JUndefined data in
     let orgId := fields "orgId" in
     let name := fields "name" in
     let description := fields "description" in
     if missing orgId
     then ret (buildReply 400 BMessage)
     else if missing name && missing description
     then ret (buildReply 400 BMessage)
     else
       let* orgResult := dynamoDb_get ORGANIZATIONS_TABLE orgId in
       match orgResult with
       | None => ret (buildReply 404 BMessage)
       | Some _ =>
           let* updatedAt := toISOString iso_stream in
           let* Attributes :=
             dynamoDb_update_ALL_NEW ORGANIZATIONS_TABLE orgId
               (updateExpression "name" "description" name description
                  updatedAt) in
           ret (buildReply 200 (BOrganization true Attributes))
       end)
    (internalFailure "updateOrganization").

End Runtime.
End Sync.

(** ** Vocabulary of the further statements *)

(** Uniqueness of Organization names: two stored Organizations of the
    same [name] are the same record. *)
Definition namesUnique (orgs : gmap string (gmap string JsVal)) : Prop :=
  ∀ k1 k2 o1 o2 name,
    orgs !! k1 = Some o1 → orgs !! k2 = Some o2 →
    o1 !! "name" = Some name → o2 !! "name" = Some name →
    k1 = k2.

(** A producer's body: whatever the services do, it has appended exactly
    one message to the queue when it returns 202 and none otherwise. *)
Definition publishing (m : M Response) : Prop :=
  ∀ w, match m w with
       | (Ok r, w') =>
           if decide (statusCode r = 202)
           then ∃ msg, queue w' = (queue w ++ [msg])%list
           else queue w' = queue w
       | (Throw _, w') => queue w' = queue w
       end.

(** A handler that always resolves, and publishes exactly when it
    accepts. *)
Definition acceptsByPublishing (handler : M Response) : Prop :=
  ∀ w, ∃ r, (handler w).1 = Ok r
            ∧ (statusCode r = 202 →
               ∃ msg, queue (handler w).2 = (queue w ++ [msg])%list)
            ∧ (statusCode r ≠ 202 → queue (handler w).2 = queue w).

(** *** Sample data for the further runs *)

(** GET /organizations/o1 and GET /organizations/o1/users *)
Definition getAcme : HttpEvent := mkEvent {["orgId" := "o1"]} "GET" Garbled.

(** GET /organizations/uuid-0, the first identifier of [sampleUuid]. *)
Definition getFirst : HttpEvent :=
  mkEvent {["orgId" := "uuid-0"]} "GET" Garbled.

(** A User record without [orgId], stored beside Acme. *)
Definition ghostRecord : gmap string JsVal :=
  object [("userId", JStr "ghost"); ("name", JStr "Zed");
          ("email", JStr "zed@acme.test");
          ("updatedAt", JStr "2024-01-01T00:00:01Z")].

Definition ghostWorld : World :=
  mkWorld {["o1" := acmeData]} {["ghost" := ghostRecord]} [] [] [] 0 0.

(** GET /organizations/o1/users/ghost *)
Definition getGhost : HttpEvent :=
  mkEvent {["orgId" := "o1"; "userId" := "ghost"]} "GET" Garbled.

(** POST /organizations/o1/users for a new User, and the read of the
    User the first identifier of [sampleUuid] names. *)
Definition benRequest : gmap string JsVal :=
  object [("name", JStr "Ben"); ("email", JStr "ben@acme.test")].

Definition postBen : HttpEvent :=
  mkEvent {["orgId" := "o1"]} "POST" (Text (Fields benRequest)).


(** PUT /organizations/o1/users renaming the stored User [u1] of [o1]. *)
Definition annaRequest : gmap string JsVal :=
  object [("userId", JStr "u1"); ("name", JStr "Anna");
          ("email", JStr "anna@acme.test")].

Definition putAnna : HttpEvent :=
  mkEvent {["orgId" := "o1"]} "PUT" (Text (Fields annaRequest)).

(** A createUser message that has lost its [data]. *)
Definition dataless : gmap string Json :=
  <["operation" := JScalar (JStr "createUser")]> ∅.

(** * Properties *)

(** ** Basic facts about the state components *)

Lemma table_set_table t m w : table t (set_table t m w) = m.
Proof. by destruct t. Qed.

Lemma table_of_tables t w w' : tables w = tables w' → table t w = table t w'.
Proof. intros H. injection H as Ho Hu. by destruct t. Qed.

Lemma tables_set_table t m w w' :
  tables w = tables w' → tables (set_table t m w) = tables (set_table t m w').
Proof. intros H. injection H as Ho Hu. destruct t; unfold tables; simpl; congruence. Qed.

Lemma set_table_id t m w :
  table t w = m → tables (set_table t m w) = tables w.
Proof. intros <-. by destruct t. Qed.

(** ** What a service call can do to the tables *)

(** A call that goes through the fault schedule either rejects, leaving
    the tables alone, or behaves as the unguarded call in a world with the
    same tables. *)
Lemma service_cases {A} (call : M A) w :
  (∃ e, service call w = (Throw e, set_faults (tail (faults w)) w))
  ∨ (∃ w0, tables w0 = tables w ∧ queue w0 = queue w ∧ console w0 = console w
           ∧ clock w0 = clock w ∧ entropy w0 = entropy w
           ∧ service call w = call w0).
Proof.
  unfold service. destruct (faults w) as [|[e|] fs] eqn:Hf.
  - right. by exists w.
  - left. by exists e.
  - right. by exists (set_faults fs w).
Qed.

Lemma service_nofault {A} (call : M A) w :
  faults w = [] → service call w = call w.
Proof. unfold service. by intros ->. Qed.

Lemma put_outcome t Item w :
  match dynamoDb_put t Item w with
  | (Ok _, w') =>
      ∃ k, key_string (prop Item (keyAttribute t)) = Some k
           ∧ tables w' = tables (set_table t (<[k := Item]> (table t w)) w)
  | (Throw _, w') => tables w' = tables w
  end.
Proof.
  unfold dynamoDb_put.
  destruct (service_cases
              (match key_string (prop Item (keyAttribute t)) with
               | Some k =>
                   if index_key_ok t Item
                   then fun w => (Ok tt, set_table t (<[k := Item]> (table t w)) w)
                   else throw ValidationException
               | None => throw ValidationException
               end) w) as [[e ->]|(w0 & Ht & _ & _ & _ & _ & ->)]; [done|].
  destruct (key_string _) as [k|]; [|done].
  destruct (index_key_ok t Item); [|done].
  exists k. split; [done|].
  rewrite (table_of_tables t _ _ Ht). by apply tables_set_table.
Qed.

Lemma update_outcome t key sets w :
  match dynamoDb_update t key sets w with
  | (Ok _, w') =>
      ∃ k, key_string key = Some k ∧ (JUndefined ∉ sets.*2)
           ∧ tables w' =
             tables (set_table t
                       (<[k := list_to_map sets
                                 ∪ default (key_only t k) (table t w !! k)]>
                          (table t w)) w)
  | (Throw _, w') => tables w' = tables w
  end.
Proof.
  unfold dynamoDb_update.
  destruct (service_cases
              (match key_string key with
               | Some k =>
                   if bool_decide (JUndefined ∈ sets.*2)
                   then throw ValidationException
                   else fun w =>
                     (Ok tt,
                      set_table t
                        (<[k := list_to_map sets
                                  ∪ default (key_only t k) (table t w !! k)]>
                           (table t w)) w)
               | None => throw ValidationException
               end) w) as [[e ->]|(w0 & Ht & _ & _ & _ & _ & ->)]; [done|].
  destruct (key_string _) as [k|]; [|done].
  case_bool_decide; [done|].
  exists k. split; [done|]. split; [done|].
  rewrite (table_of_tables t _ _ Ht). by apply tables_set_table.
Qed.

(** ** The consumer, record by record *)

Lemma processSqsMessages_cons r rest w :
  processSqsMessages (r :: rest) w =
  match processRecord r w with
  | (Ok _, w') => processSqsMessages rest w'
  | (Throw e, w') => (Throw e, w')
  end.
Proof.
  unfold processSqsMessages, bind. simpl. unfold bind.
  by destruct (processRecord r w) as [[[]|e] w'].
Qed.

Lemma processRecord_unfold r w :
  processRecord r w =
  match applyRecord r w with
  | (Ok a, w') => (Ok a, w')
  | (Throw e, w') =>
      (Throw e, set_console (console w' ++ [ErrorSqsRecord r e]) w')
  end.
Proof.
  unfold processRecord, try_catch.
  by destruct (applyRecord r w) as [[[]|e] w'].
Qed.

(** Reading a property of an object literal. *)
Lemma prop_object_cons k v rest a :
  prop (object ((k, v) :: rest)) a =
  if decide (a = k)
  then (if decide (v = JUndefined) then prop (object rest) a else v)
  else prop (object rest) a.
Proof.
  unfold prop. simpl. destruct v; simpl;
    repeat case_decide; simplify_eq; try done;
    by rewrite ?lookup_insert_eq, ?lookup_insert_ne by done.
Qed.

Lemma prop_object_nil a : prop (object []) a = JUndefined.
Proof. unfold prop. simpl. by rewrite lookup_empty. Qed.

Lemma object_defined fields a : object fields !! a ≠ Some JUndefined.
Proof.
  induction fields as [|[k v] rest IH]; simpl.
  - by rewrite lookup_empty.
  - destruct v; try done;
      (destruct (decide (k = a)) as [->|];
       [by rewrite lookup_insert_eq | by rewrite lookup_insert_ne]).
Qed.

Lemma prop_pick attrs o a :
  prop (pick attrs o) a =
  if bool_decide (a ∈ attrs) then prop o a else JUndefined.
Proof.
  unfold pick. induction attrs as [|k rest IH].
  - by rewrite prop_object_nil.
  - rewrite fmap_cons, prop_object_cons, IH.
    destruct (decide (a = k)) as [->|Hne].
    + rewrite (bool_decide_eq_true_2 (k ∈ k :: rest)) by set_solver.
      destruct (decide (prop o k = JUndefined)) as [Hu|]; [|done].
      rewrite Hu. by case_bool_decide.
    + apply (f_equal (fun b : bool => if b then prop o a else JUndefined)).
      apply bool_decide_ext. rewrite elem_of_cons.
      split; [by right | by intros [?|?]].
Qed.

Lemma applyRecord_create t m o w :
  m !! "operation" = Some (JScalar (JStr (createOperation t))) →
  m !! "data" = Some (JObject o) →
  applyRecord (Text (Fields m)) w
  = dynamoDb_put t (pick (createAttributes t) o) w.
Proof.
  intros Hop Hdata. unfold applyRecord, bind; simpl.
  rewrite Hop, Hdata. by destruct t.
Qed.

Lemma keyAttribute_created t : keyAttribute t ∈ createAttributes t.
Proof. destruct t; simpl; set_solver. Qed.

(** Outcome of a delivery that holds one create Intent. *)
Lemma deliver_create t m o w :
  m !! "operation" = Some (JScalar (JStr (createOperation t))) →
  m !! "data" = Some (JObject o) →
  match processSqsMessages [Text (Fields m)] w with
  | (Ok _, w') =>
      ∃ k, key_string (prop o (keyAttribute t)) = Some k
           ∧ tables w' =
             tables (set_table t
                       (<[k := pick (createAttributes t) o]> (table t w)) w)
  | (Throw _, w') => tables w' = tables w
  end.
Proof.
  intros Hop Hdata.
  rewrite processSqsMessages_cons, processRecord_unfold,
    (applyRecord_create t m o w Hop Hdata).
  pose proof (put_outcome t (pick (createAttributes t) o) w) as Hput.
  destruct (dynamoDb_put t _ w) as [[[]|e] w']; simpl; [|done].
  destruct Hput as (k & Hk & Ht). exists k. split; [|done].
  rewrite prop_pick, bool_decide_eq_true_2 in Hk; [done|].
  apply keyAttribute_created.
Qed.

(** C1. A createOrganization or createUser Intent that the consumer has
    applied leaves, under the key the Intent names, the item whose
    attributes are exactly those the Intent carries (whatever the table
    held before); delivering the same Intent again, in any world with
    those tables, leaves the tables as the first delivery left them. *)
Theorem create_intent_idempotent t (m : gmap string Json)
    (o : gmap string JsVal) w w1 resp :
  m !! "operation" = Some (JScalar (JStr (createOperation t))) →
  m !! "data" = Some (JObject o) →
  processSqsMessages [Text (Fields m)] w = (Ok resp, w1) →
  ∃ k item,
    key_string (prop o (keyAttribute t)) = Some k
    ∧ table t w1 !! k = Some item
    ∧ (∀ a, prop item a =
            if bool_decide (a ∈ createAttributes t) then prop o a
            else JUndefined)
    ∧ ∀ w2, tables w2 = tables w1 →
        tables (processSqsMessages [Text (Fields m)] w2).2 = tables w1.
Proof.
  intros Hop Hdata Hrun.
  pose proof (deliver_create t m o w Hop Hdata) as H1. rewrite Hrun in H1.
  destruct H1 as (k & Hk & Ht).
  exists k, (pick (createAttributes t) o). split; [done|].
  assert (table t w1 !! k = Some (pick (createAttributes t) o)) as Hrec.
  { rewrite (table_of_tables t _ _ Ht), table_set_table.
    apply lookup_insert_eq. }
  split; [done|]. split; [apply prop_pick|].
  intros w2 H2.
  pose proof (deliver_create t m o w2 Hop Hdata) as Hagain.
  destruct (processSqsMessages _ w2) as [[r|e] w3]; simpl.
  - destruct Hagain as (k' & Hk' & Ht'). rewrite Ht'.
    assert (k' = k) as -> by congruence.
    rewrite <- H2. apply set_table_id.
    rewrite (table_of_tables t _ _ H2). symmetry. by apply insert_id.
  - by rewrite Hagain.
Qed.

(** ** Update Intents *)

Lemma applyRecord_update t m o w :
  m !! "operation" = Some (JScalar (JStr (updateOperation t))) →
  m !! "data" = Some (JObject o) →
  applyRecord (Text (Fields m)) w
  = dynamoDb_update t (prop o (keyAttribute t)) (updateClauses t o) w.
Proof.
  intros Hop Hdata. unfold applyRecord, bind; simpl.
  rewrite Hop, Hdata. by destruct t.
Qed.

(** Every clause assigns an attribute the value the Intent carries for it. *)
Lemma updateClauses_from_intent t o a v :
  (a, v) ∈ updateClauses t o →
  v = prop o a ∧ a ∈ ["name"; secondField t; "updatedAt"].
Proof.
  unfold updateClauses, updateExpression.
  rewrite !elem_of_app, list_elem_of_singleton.
  intros [H|[H|H]].
  - destruct (truthy (prop o "name")); [|by apply elem_of_nil in H].
    apply list_elem_of_singleton in H. simplify_eq. split; [done|set_solver].
  - destruct (truthy (prop o (secondField t))); [|by apply elem_of_nil in H].
    apply list_elem_of_singleton in H. simplify_eq. split; [done|set_solver].
  - simplify_eq. split; [done|set_solver].
Qed.

Lemma updateClauses_truthy t o a v :
  (a, v) ∈ updateClauses t o → a ≠ "updatedAt" → truthy (prop o a) = true.
Proof.
  unfold updateClauses, updateExpression.
  rewrite !elem_of_app, list_elem_of_singleton.
  intros [H|[H|H]] Hne.
  - destruct (truthy (prop o "name")) eqn:E; [|by apply elem_of_nil in H].
    apply list_elem_of_singleton in H. by simplify_eq.
  - destruct (truthy (prop o (secondField t))) eqn:E;
      [|by apply elem_of_nil in H].
    apply list_elem_of_singleton in H. by simplify_eq.
  - by simplify_eq.
Qed.

Lemma updateClauses_updatedAt t o :
  list_to_map (M := gmap string JsVal) (updateClauses t o) !! "updatedAt"
  = Some (prop o "updatedAt").
Proof.
  unfold updateClauses, updateExpression.
  destruct t, (truthy (prop o "name")), (truthy (prop o _)); simpl;
    by rewrite ?lookup_insert_ne, lookup_insert_eq by done.
Qed.

(** Re-running the same SET clauses on their own result changes nothing. *)
Lemma update_twice (sets : list (string * JsVal)) (old : gmap string JsVal) :
  list_to_map sets ∪ (list_to_map sets ∪ old)
  = (list_to_map sets ∪ old : gmap string JsVal).
Proof. by rewrite (assoc_L (∪)), (idemp_L (∪)). Qed.

(** Outcome of a delivery that holds one update Intent. *)
Lemma deliver_update t m o w :
  m !! "operation" = Some (JScalar (JStr (updateOperation t))) →
  m !! "data" = Some (JObject o) →
  match processSqsMessages [Text (Fields m)] w with
  | (Ok _, w') =>
      ∃ k, key_string (prop o (keyAttribute t)) = Some k
           ∧ prop o "updatedAt" ≠ JUndefined
           ∧ tables w' =
             tables (set_table t
                       (<[k := list_to_map (updateClauses t o)
                                 ∪ default (key_only t k) (table t w !! k)]>
                          (table t w)) w)
  | (Throw _, w') => tables w' = tables w
  end.
Proof.
  intros Hop Hdata.
  rewrite processSqsMessages_cons, processRecord_unfold,
    (applyRecord_update t m o w Hop Hdata).
  pose proof (update_outcome t (prop o (keyAttribute t))
                (updateClauses t o) w) as Hupd.
  destruct (dynamoDb_update t _ _ w) as [[[]|e] w']; simpl; [|done].
  destruct Hupd as (k & Hk & Hdef & Ht). exists k. split; [done|].
  split; [|done].
  intros Hu. apply Hdef. apply list_elem_of_fmap.
  exists ("updatedAt", JUndefined). split; [done|].
  unfold updateClauses, updateExpression. rewrite Hu. set_solver.
Qed.

(** ** Components of the world a computation leaves alone *)

Section Frame.
Context {X : Type} (view : World -> X).
Hypothesis view_faults : ∀ f w, view (set_faults f w) = view w.
#[local] Abbreviation keeps := (keeps view).

Lemma keeps_ret {A} (a : A) : keeps (ret a).
Proof. by intros w. Qed.

Lemma keeps_throw {A} e : keeps (@throw A e).
Proof. by intros w. Qed.

Lemma keeps_bind {A B} (m : M A) (k : A -> M B) :
  keeps m → (∀ a, keeps (k a)) → keeps (bind m k).
Proof.
  intros Hm Hk w. unfold bind. specialize (Hm w).
  destruct (m w) as [[a|e] w']; simpl in *; [|done].
  by rewrite Hk.
Qed.

Lemma keeps_try_catch {A} (m : M A) (h : Exn -> M A) :
  keeps m → (∀ e, keeps (h e)) → keeps (try_catch m h).
Proof.
  intros Hm Hh w. unfold try_catch. specialize (Hm w).
  destruct (m w) as [[a|e] w']; simpl in *; [done|].
  by rewrite Hh.
Qed.

Lemma keeps_forEach {A} (f : A -> M unit) xs :
  (∀ x, keeps (f x)) → keeps (forEach f xs).
Proof.
  intros Hf. induction xs as [|x rest IH]; simpl.
  - apply keeps_ret.
  - by apply keeps_bind.
Qed.

Lemma keeps_service {A} (call : M A) : keeps call → keeps (service call).
Proof.
  intros H w. unfold service.
  destruct (faults w) as [|[e|] fs]; simpl; [done|done|].
  by rewrite H.
Qed.

Lemma keeps_JSON_parse {F} (text : Body F) : keeps (JSON_parse text).
Proof. destruct text; [apply keeps_throw|apply keeps_ret]. Qed.

Lemma keeps_destructure {F} (undef : F) d : keeps (destructure undef d).
Proof. destruct d as [[]|]; first [apply keeps_throw|apply keeps_ret]. Qed.

Lemma keeps_member data k : keeps (member data k).
Proof. destruct data as [[]|]; first [apply keeps_throw|apply keeps_ret]. Qed.

Lemma keeps_ToString v : keeps (ToString v).
Proof.
  unfold ToString. destruct (hasStringForm v); [apply keeps_ret|apply keeps_throw].
Qed.

Lemma keeps_get t key : keeps (dynamoDb_get t key).
Proof.
  apply keeps_service. destruct (key_string key); [done|apply keeps_throw].
Qed.

Lemma keeps_scan t a v : keeps (dynamoDb_scan t a v).
Proof. by apply keeps_service. Qed.

Lemma keeps_query orgId email : keeps (dynamoDb_query_OrgId_index orgId email).
Proof.
  apply keeps_service. destruct (key_string orgId); [done|apply keeps_throw].
Qed.

End Frame.

Ltac keeps_step :=
  first
    [ apply keeps_ret | apply keeps_throw
    | apply keeps_JSON_parse | apply keeps_destructure | apply keeps_member
    | apply keeps_ToString | apply keeps_get | apply keeps_scan | apply keeps_query
    | apply keeps_bind | apply keeps_try_catch | apply keeps_forEach
    | progress intros
    | match goal with
      | |- keeps _ (if ?b then _ else _) => destruct b
      | |- keeps _ (match ?x with _ => _ end) => destruct x
      end ].

Lemma keeps_put {X} (view : World -> X) t Item :
  (∀ f w, view (set_faults f w) = view w) →
  (∀ m w, view (set_table t m w) = view w) →
  keeps view (dynamoDb_put t Item).
Proof.
  intros Hf Ht. apply keeps_service; [done|].
  destruct (key_string _); [|by apply keeps_throw].
  destruct (index_key_ok _ _); [|by apply keeps_throw].
  intros w. apply Ht.
Qed.

Lemma keeps_update {X} (view : World -> X) t key sets :
  (∀ f w, view (set_faults f w) = view w) →
  (∀ m w, view (set_table t m w) = view w) →
  keeps view (dynamoDb_update t key sets).
Proof.
  intros Hf Ht. apply keeps_service; [done|].
  destruct (key_string _); [|by apply keeps_throw].
  case_bool_decide; [by apply keeps_throw|].
  intros w. apply Ht.
Qed.

(** The consumer reads no clock, draws no identifier and publishes
    nothing: whatever it writes comes from the records it was handed. *)
Lemma consumer_keeps {X} (view : World -> X) Records :
  (∀ f w, view (set_faults f w) = view w) →
  (∀ c w, view (set_console c w) = view w) →
  (∀ t m w, view (set_table t m w) = view w) →
  keeps view (processSqsMessages Records).
Proof.
  intros Hf Hc Ht. unfold processSqsMessages.
  apply keeps_bind; [|intros; apply keeps_ret].
  apply keeps_forEach. intros r. unfold processRecord.
  apply keeps_try_catch.
  - unfold applyRecord.
    repeat first
      [ by apply keeps_put | by apply keeps_update
      | (intros w; apply Hc) | keeps_step; try done ].
  - intros e. apply keeps_bind; [|intros; apply keeps_throw].
    intros w. apply Hc.
Qed.

Lemma attribute_written t k item a w w' :
  tables w' = tables (set_table t (<[k := item]> (table t w)) w) →
  attribute t w' k a = item !! a.
Proof.
  intros Ht. unfold attribute.
  by rewrite (table_of_tables t _ _ Ht), table_set_table, lookup_insert_eq.
Qed.

(** The record an update produces, attribute by attribute: an attribute
    either keeps the value it had, or takes the value the Intent carries
    under the same name. *)
Lemma updated_attribute t o k w a :
  key_string (prop o (keyAttribute t)) = Some k →
  prop o "updatedAt" ≠ JUndefined →
  (list_to_map (updateClauses t o)
     ∪ default (key_only t k) (table t w !! k)) !! a = attribute t w k a
  ∨ (prop o a ≠ JUndefined
     ∧ (list_to_map (updateClauses t o)
          ∪ default (key_only t k) (table t w !! k)) !! a = Some (prop o a)).
Proof.
  intros Hk Hu.
  destruct (list_to_map (M := gmap string JsVal) (updateClauses t o) !! a)
    as [v|] eqn:Hv.
  - pose proof (elem_of_list_to_map_2 _ _ _ Hv) as Hin.
    destruct (updateClauses_from_intent _ _ _ _ Hin) as [-> _].
    right. split; [|by erewrite lookup_union_Some_l].
    destruct (decide (a = "updatedAt")) as [->|Hne]; [done|].
    pose proof (updateClauses_truthy _ _ _ _ Hin Hne) as Htr.
    intros Hundef. by rewrite Hundef in Htr.
  - rewrite lookup_union_r by done. unfold attribute.
    destruct (table t w !! k) as [old|] eqn:Hold; simpl; [by left|].
    unfold key_only.
    destruct (decide (a = keyAttribute t)) as [->|Hne].
    + right. rewrite lookup_singleton_eq.
      unfold key_string in Hk. destruct (prop o (keyAttribute t)); try done.
      destruct (String.eqb s ""); by simplify_eq.
    + left. by rewrite lookup_singleton_ne.
Qed.

(** An attribute no clause names keeps its value. *)
Lemma untouched_attribute t o k w a :
  a ≠ keyAttribute t →
  a ≠ "updatedAt" →
  (a = "name" → truthy (prop o "name") = false) →
  (a = secondField t → truthy (prop o (secondField t)) = false) →
  (list_to_map (updateClauses t o)
     ∪ default (key_only t k) (table t w !! k)) !! a = attribute t w k a.
Proof.
  intros Hkey Hupd Hname Hsecond.
  destruct (list_to_map (M := gmap string JsVal) (updateClauses t o) !! a)
    as [v|] eqn:Hv.
  - pose proof (elem_of_list_to_map_2 _ _ _ Hv) as Hin.
    pose proof (updateClauses_truthy _ _ _ _ Hin Hupd) as Htr.
    destruct (updateClauses_from_intent _ _ _ _ Hin) as [_ Hmem].
    rewrite !elem_of_cons in Hmem.
    destruct Hmem as [->|[->|[->|Hnil]]].
    + by rewrite Hname in Htr.
    + by rewrite Hsecond in Htr.
    + done.
    + by apply elem_of_nil in Hnil.
  - rewrite lookup_union_r by done. unfold attribute.
    destruct (table t w !! k) as [old|]; simpl; [done|].
    unfold key_only. by rewrite lookup_singleton_ne.
Qed.

(** C2. An updateOrganization or updateUser Intent that the consumer has
    applied leaves a record whose [updatedAt] is the value the Intent
    carries (the consumer does not read the clock); each attribute of the
    record either is as it was before or holds the value the Intent carries
    under that name; and delivering the same Intent again, in any world with
    those tables, leaves the tables as the first delivery left them. *)
Theorem update_intent_idempotent t (m : gmap string Json)
    (o : gmap string JsVal) w w1 resp :
  m !! "operation" = Some (JScalar (JStr (updateOperation t))) →
  m !! "data" = Some (JObject o) →
  processSqsMessages [Text (Fields m)] w = (Ok resp, w1) →
  ∃ k,
    key_string (prop o (keyAttribute t)) = Some k
    ∧ attribute t w1 k "updatedAt" = Some (prop o "updatedAt")
    ∧ clock w1 = clock w
    ∧ (∀ a, attribute t w1 k a = attribute t w k a
            ∨ (prop o a ≠ JUndefined
               ∧ attribute t w1 k a = Some (prop o a)))
    ∧ ∀ w2, tables w2 = tables w1 →
        tables (processSqsMessages [Text (Fields m)] w2).2 = tables w1.
Proof.
  intros Hop Hdata Hrun.
  pose proof (deliver_update t m o w Hop Hdata) as H1. rewrite Hrun in H1.
  destruct H1 as (k & Hk & Hu & Ht).
  exists k. split; [done|].
  split.
  { rewrite (attribute_written _ _ _ _ _ _ Ht), lookup_union,
      updateClauses_updatedAt.
    by destruct (default _ _ !! _). }
  split.
  { pose proof (consumer_keeps clock [Text (Fields m)]) as Hclock.
    specialize (Hclock ltac:(done) ltac:(done) ltac:(by intros []) w).
    by rewrite Hrun in Hclock. }
  split.
  { intros a. rewrite (attribute_written _ _ _ _ _ _ Ht).
    by apply updated_attribute. }
  intros w2 H2.
  pose proof (deliver_update t m o w2 Hop Hdata) as Hagain.
  destruct (processSqsMessages _ w2) as [[r|e] w3]; simpl.
  - destruct Hagain as (k' & Hk' & _ & Ht'). rewrite Ht'.
    assert (k' = k) as -> by congruence.
    rewrite <- H2. apply set_table_id.
    rewrite (table_of_tables t _ _ H2), (table_of_tables t _ _ Ht),
      table_set_table, lookup_insert_eq. simpl.
    rewrite update_twice. symmetry. apply insert_id, lookup_insert_eq.
  - by rewrite Hagain.
Qed.

(** An update Intent whose [data] is not an object never reaches the
    table. *)
Lemma applyRecord_update_scalar t m v w :
  m !! "operation" = Some (JScalar (JStr (updateOperation t))) →
  default (JScalar JUndefined) (m !! "data") = JScalar v →
  tables (applyRecord (Text (Fields m)) w).2 = tables w.
Proof.
  intros Hop Hdata. unfold applyRecord, bind; simpl.
  rewrite Hop, Hdata.
  destruct t, v; simpl; try done;
    match goal with
    | |- context [dynamoDb_update ?t ?key ?sets ?w] =>
        pose proof (update_outcome t key sets w) as Hupd;
        destruct (dynamoDb_update t key sets w) as [[[]|e] w'];
        [by destruct Hupd as (k & ? & _)|done]
    end.
Qed.

Lemma attribute_other_key t k k' item a w w' :
  k' ≠ k →
  tables w' = tables (set_table t (<[k := item]> (table t w)) w) →
  attribute t w' k' a = attribute t w k' a.
Proof.
  intros Hne Ht. unfold attribute.
  by rewrite (table_of_tables t _ _ Ht), table_set_table, lookup_insert_ne.
Qed.

Lemma attribute_same_tables t k a w w' :
  tables w' = tables w → attribute t w' k a = attribute t w k a.
Proof. intros Ht. unfold attribute. by rewrite (table_of_tables t _ _ Ht). Qed.

(** C5. Unmentioned fields survive a partial update: an updateOrganization
    Intent whose data has no [name], once applied, leaves the [name] of the
    stored Organization as it was and sets its [updatedAt] to the value of
    the Intent; and delivering an updateUser Intent, whatever the outcome,
    leaves every attribute of every stored User as it was, except [name],
    [email] and [updatedAt] (and the key of a record it creates): [orgId]
    and [createdAt] in particular. *)
Theorem partial_update_frame (m : gmap string Json) w :
  (∀ o resp w1,
     m !! "operation" = Some (JScalar (JStr "updateOrganization")) →
     m !! "data" = Some (JObject o) →
     o !! "name" = None →
     processSqsMessages [Text (Fields m)] w = (Ok resp, w1) →
     ∃ k, key_string (prop o "orgId") = Some k
          ∧ attribute ORGANIZATIONS_TABLE w1 k "name"
            = attribute ORGANIZATIONS_TABLE w k "name"
          ∧ attribute ORGANIZATIONS_TABLE w1 k "updatedAt"
            = Some (prop o "updatedAt"))
  ∧ (m !! "operation" = Some (JScalar (JStr "updateUser")) →
     ∀ k a, a ≠ "userId" → a ≠ "name" → a ≠ "email" → a ≠ "updatedAt" →
       attribute USERS_TABLE (processSqsMessages [Text (Fields m)] w).2 k a
       = attribute USERS_TABLE w k a).
Proof.
  split.
  - intros o resp w1 Hop Hdata Hname Hrun.
    pose proof (deliver_update ORGANIZATIONS_TABLE m o w Hop Hdata) as H1.
    rewrite Hrun in H1. destruct H1 as (k & Hk & Hu & Ht).
    exists k. split; [done|]. split.
    + rewrite (attribute_written _ _ _ _ _ _ Ht).
      apply untouched_attribute; try done.
      intros _. unfold prop. by rewrite Hname.
    + rewrite (attribute_written _ _ _ _ _ _ Ht), lookup_union,
        updateClauses_updatedAt.
      by destruct (default _ _ !! _).
  - intros Hop k a Hn1 Hn2 Hn3 Hn4.
    destruct (default (JScalar JUndefined) (m !! "data")) as [v|o] eqn:Hdata.
    + rewrite processSqsMessages_cons, processRecord_unfold.
      pose proof (applyRecord_update_scalar USERS_TABLE m v w Hop Hdata) as Hs.
      destruct (applyRecord _ w) as [[[]|e] w']; simpl in *;
        by apply attribute_same_tables.
    + assert (m !! "data" = Some (JObject o)) as Hdata'.
      { by destruct (m !! "data"); simplify_eq/=. }
      pose proof (deliver_update USERS_TABLE m o w Hop Hdata') as H1.
      destruct (processSqsMessages _ w) as [[r|e] w1]; simpl;
        [|by apply attribute_same_tables].
      destruct H1 as (k0 & Hk & Hu & Ht).
      destruct (decide (k = k0)) as [->|Hne];
        [|by apply (attribute_other_key _ _ _ _ _ _ _ Hne Ht)].
      rewrite (attribute_written _ _ _ _ _ _ Ht).
      by apply untouched_attribute.
Qed.

(** ** Failure policy of the consumer *)

Lemma forEach_app {A} (f : A -> M unit) xs ys w :
  forEach f (xs ++ ys) w = (forEach f xs ;;; forEach f ys) w.
Proof.
  revert w. induction xs as [|x rest IH]; intros w; simpl.
  - done.
  - unfold bind. destruct (f x w) as [[[]|e] w']; [|done].
    by rewrite IH.
Qed.

Lemma atomic_bind {A B} (m : M A) (k : A -> M B) :
  keeps tables m → (∀ a, atomic (k a)) → atomic (bind m k).
Proof.
  intros Hm Hk w. unfold bind. specialize (Hm w).
  destruct (m w) as [[a|e] w1]; simpl in *; [|done].
  specialize (Hk a w1). destruct (k a w1) as [[b|e] w2]; [done|].
  by rewrite Hk.
Qed.

Lemma atomic_put t Item : atomic (dynamoDb_put t Item).
Proof.
  intros w. pose proof (put_outcome t Item w) as H.
  by destruct (dynamoDb_put t Item w) as [[[]|e] w'].
Qed.

Lemma atomic_update t key sets : atomic (dynamoDb_update t key sets).
Proof.
  intros w. pose proof (update_outcome t key sets w) as H.
  by destruct (dynamoDb_update t key sets w) as [[[]|e] w'].
Qed.

Lemma atomic_applyRecord r : atomic (applyRecord r).
Proof.
  unfold applyRecord.
  repeat first
    [ apply atomic_put | apply atomic_update
    | (apply atomic_bind; [by repeat keeps_step|intros ?])
    | match goal with
      | |- atomic (if ?b then _ else _) => destruct b
      end ].
  by intros w.
Qed.

(** C3. When the records before the i-th have been processed and the
    apply of the i-th raises [e], the invocation ends by raising that same
    [e], the records after the i-th are not touched, and the tables hold
    what the earlier records of the batch wrote. *)
Theorem batch_error_propagates pre r post w w1 w2 e :
  forEach processRecord pre w = (Ok tt, w1) →
  applyRecord r w1 = (Throw e, w2) →
  processSqsMessages (pre ++ r :: post) w
  = (Throw e, set_console (console w2 ++ [ErrorSqsRecord r e]) w2)
  ∧ tables w2 = tables w1.
Proof.
  intros Hpre Hr. split.
  - unfold processSqsMessages. unfold bind at 1.
    rewrite forEach_app. unfold bind at 1. rewrite Hpre. simpl.
    unfold bind at 1. rewrite processRecord_unfold, Hr. done.
  - pose proof (atomic_applyRecord r w1) as H. by rewrite Hr in H.
Qed.

(** ** Unrecognized operations *)


Lemma recognized_hasStringForm operation :
  recognized operation = true → hasStringForm operation = true.
Proof. by destruct operation. Qed.



(** ** The producers never write to the store *)

Lemma keeps_tables_send body : keeps tables (sqs_sendMessage body).
Proof. by apply keeps_service. Qed.

Lemma keeps_tables_uuidv4 uuid : keeps tables (uuidv4 uuid).
Proof. by intros w. Qed.

Lemma keeps_tables_toISOString iso : keeps tables (toISOString iso).
Proof. by intros w. Qed.

Lemma keeps_tables_internalError h e : keeps tables (internalError h e).
Proof. by intros w. Qed.

Ltac keeps_tables :=
  repeat first
    [ apply keeps_tables_send | apply keeps_tables_uuidv4
    | apply keeps_tables_toISOString | apply keeps_tables_internalError
    | keeps_step; try done ].

Lemma createOrganization_keeps_tables uuid iso event :
  keeps tables (createOrganization uuid iso event).
Proof. unfold createOrganization. keeps_tables. Qed.


Lemma createOrUpdateUser_keeps_tables uuid iso event :
  keeps tables (createOrUpdateUser uuid iso event).
Proof. unfold createOrUpdateUser. keeps_tables. Qed.

Lemma getUser_keeps_tables event : keeps tables (getUser event).
Proof. unfold getUser. keeps_tables. Qed.

(** ** Scans and queries *)

Lemma elem_of_scan (P : gmap string JsVal -> Prop) `{!∀ x, Decision (P x)}
    (tbl : gmap string (gmap string JsVal)) item :
  item ∈ filter P (map_to_list tbl).*2 ↔ P item ∧ ∃ k, tbl !! k = Some item.
Proof.
  rewrite list_elem_of_filter, list_elem_of_fmap. split.
  - intros [HP ([k it] & -> & Hin)]. split; [done|].
    exists k. by apply elem_of_map_to_list.
  - intros [HP [k Hk]]. split; [done|].
    exists (k, item). split; [done|]. by apply elem_of_map_to_list.
Qed.

Lemma length_positive {A} (l : list A) : (0 <? length l)%nat = true ↔ l ≠ [].
Proof. destruct l; simpl; [by split|by split]. Qed.

Lemma scan_empty (P : gmap string JsVal -> Prop) `{!∀ x, Decision (P x)}
    (tbl : gmap string (gmap string JsVal)) :
  (∀ k item, tbl !! k = Some item → ¬ P item) →
  filter P (map_to_list tbl).*2 = [].
Proof.
  intros Hnone. destruct (filter P _) as [|item l] eqn:E; [done|].
  assert (item ∈ filter P (map_to_list tbl).*2) as Hin by (rewrite E; left).
  apply elem_of_scan in Hin as [HP [k Hk]]. by destruct (Hnone k item).
Qed.

Lemma scan_nonempty (P : gmap string JsVal -> Prop) `{!∀ x, Decision (P x)}
    (tbl : gmap string (gmap string JsVal)) k item :
  tbl !! k = Some item → P item →
  (0 <? length (filter P (map_to_list tbl).*2))%nat = true.
Proof.
  intros Hk HP. apply length_positive. intros E.
  assert (item ∈ filter P (map_to_list tbl).*2) as Hin.
  { apply elem_of_scan. eauto. }
  rewrite E in Hin. by apply elem_of_nil in Hin.
Qed.

(** ** Running the collaborators when no fault is scheduled *)

Lemma scan_run t a v w :
  faults w = [] →
  dynamoDb_scan t a v w
  = (Ok (filter (fun item => item !! a = Some v) (map_to_list (table t w)).*2),
     w).
Proof. intros Hf. unfold dynamoDb_scan. by rewrite service_nofault. Qed.

Lemma get_run t key k w :
  faults w = [] → key_string key = Some k →
  dynamoDb_get t key w = (Ok (table t w !! k), w).
Proof.
  intros Hf Hk. unfold dynamoDb_get. by rewrite service_nofault, Hk.
Qed.

Lemma query_run orgId o email w :
  faults w = [] → key_string orgId = Some o →
  dynamoDb_query_OrgId_index orgId email w
  = (Ok (filter (fun item => item !! "orgId" = Some (JStr o)
                             ∧ item !! "email" = Some email)
           (map_to_list (users w)).*2), w).
Proof.
  intros Hf Hk. unfold dynamoDb_query_OrgId_index.
  by rewrite service_nofault, Hk.
Qed.

Lemma send_run message w :
  faults w = [] →
  sqs_sendMessage message w
  = (Ok tt, set_queue (queue w ++ [message]) w).
Proof. intros Hf. unfold sqs_sendMessage. by rewrite service_nofault. Qed.

#[local] Arguments object : simpl never.
#[local] Arguments stringify_message : simpl never.
#[local] Arguments missing : simpl never.
#[local] Arguments truthy : simpl never.
#[local] Arguments dynamoDb_scan : simpl never.
#[local] Arguments dynamoDb_get : simpl never.
#[local] Arguments dynamoDb_query_OrgId_index : simpl never.
#[local] Arguments sqs_sendMessage : simpl never.
#[local] Arguments key_string : simpl never.

Ltac fold_prop :=
  repeat match goal with
    | |- context [default JUndefined (?o !! ?k)] =>
        change (default JUndefined (o !! k)) with (prop o k)
    end.

(** ** POST /organizations *)

(** C6, as the code has it. [createOrganization] never touches the
    tables.  A request whose body is absent, is no JSON text or is [null]
    is answered 500, the error logged and nothing queued.  On every other
    request: when [name] or [description] is missing it answers 400 and
    the world is as before; otherwise, with store and queue answering, when
    the store holds an Organization of that [name] it answers 409 and the
    world is as before; and when it holds none, it takes the next
    identifier of the generator as [orgId], appends exactly one
    createOrganization Intent to the queue and answers 202 with that
    [orgId]. *)
Theorem submitCreateOrganization_cases uuid iso event w :
  let out := createOrganization uuid iso event w in
  tables out.2 = tables w
  ∧ match requestFields event with
    | inl error =>
        out = (Ok (buildResponse 500 (PError error)),
               set_console
                 (console w ++ [ErrorHandler "createOrganization" error]) w)
    | inr o =>
        let name := prop o "name" in
        let description := prop o "description" in
        if missing name || missing description
        then out = (Ok (buildResponse 400 PMessage), w)
        else
          faults w = [] →
          ((∃ k item, organizations w !! k = Some item
                      ∧ item !! "name" = Some name) →
           out = (Ok (buildResponse 409 PMessage), w))
          ∧ ((∀ k item, organizations w !! k = Some item →
                        item !! "name" ≠ Some name) →
             let orgId := JStr (uuid (entropy w)) in
             out.1 = Ok (buildResponse 202 (POrgId orgId))
             ∧ queue out.2 =
               (queue w ++
                  [intent "createOrganization"
                     (object [("orgId", orgId); ("name", name);
                              ("description", description);
                              ("createdAt", JStr (iso (clock w)));
                              ("updatedAt", JStr (iso (S (clock w))))])])%list
             ∧ entropy out.2 = S (entropy w))
    end.
Proof.
  intros out. split; [apply createOrganization_keeps_tables|].
  subst out. unfold requestFields, createOrganization, try_catch, bind.
  destruct (body event) as [|[v|o]]; [done| |].
  - destruct v; done.
  - simpl. fold_prop.
    destruct (missing (prop o "name") || missing (prop o "description"));
      [done|].
    intros Hf. rewrite scan_run by done. simpl. split.
    + intros (k & item & Hk & Hname).
      by rewrite (scan_nonempty _ _ k item Hk Hname).
    + intros Hfree.
      rewrite scan_empty by (intros k item Hk; by apply (Hfree k)). simpl.
      rewrite send_run by done. done.
Qed.

Lemma key_string_truthy k :
  missing (JStr k) = false → key_string (JStr k) = Some k.
Proof.
  unfold missing, truthy, key_string.
  by destruct (String.eqb k "").
Qed.

Lemma lookup_object_absent fields a :
  prop (object fields) a = JUndefined → object fields !! a = None.
Proof.
  unfold prop. pose proof (object_defined fields a) as Hdef.
  destruct (object fields !! a) as [v|]; [|done].
  simpl. intros ->. done.
Qed.

(** ** PUT /organizations *)


(** ** GET /organizations/{orgId}/users/{userId} *)

Lemma missing_path_segment s : s ≠ "" → missing (JStr s) = false.
Proof.
  intros Hs. unfold missing, truthy.
  destruct (String.eqb_spec s ""); [done|done].
Qed.

(** C9. [getUser] never touches the tables.  With both path parameters
    present and the store answering, it leaves the world as it is, it
    answers 200 with a record exactly when the Users table holds that
    record under [userId] and the [orgId] of the record is the one
    requested, and it answers 404 in every other case. *)
Theorem getUser_scoped event w :
  let out := getUser event w in
  tables out.2 = tables w
  ∧ ∀ orgId userId,
      pathParameters event !! "orgId" = Some orgId →
      pathParameters event !! "userId" = Some userId →
      orgId ≠ "" → userId ≠ "" →
      faults w = [] →
      out.2 = w
      ∧ (∀ item, out.1 = Ok (buildResponse 200 (PUser item))
                 ↔ users w !! userId = Some item
                   ∧ prop item "orgId" = JStr orgId)
      ∧ ((¬ ∃ item, users w !! userId = Some item
                    ∧ prop item "orgId" = JStr orgId) →
         out.1 = Ok (buildResponse 404 PMessage)).
Proof.
  intros out. split; [apply getUser_keeps_tables|].
  intros orgId userId Horg Huser Ho Hu Hf. subst out.
  unfold getUser, try_catch, bind, pathParameter.
  rewrite Horg, Huser. simpl.
  rewrite !missing_path_segment by done. simpl.
  rewrite (get_run _ _ userId)
    by (try done; by apply key_string_truthy, missing_path_segment).
  simpl.
  destruct (users w !! userId) as [Item|] eqn:Hget; simpl.
  - case_bool_decide as Hscope; simpl.
    + split; [done|]. split.
      * intros item. split; [intros [= <-]; by split|].
        by intros [[= <-] _].
      * intros Hno. destruct Hno. by exists Item.
    + split; [done|]. split.
      * intros item. split; [done|]. by intros [[= <-] ?].
      * done.
  - split; [done|]. split; [|done].
    intros item. split; [done|]. by intros [? _].
Qed.

(** ** PUT /organizations/{orgId}/users for a user the store does not hold *)



Lemma truthy_defined v : missing v = false → v ≠ JUndefined.
Proof. by intros H ->. Qed.

Lemma truthy_of_missing v : missing v = false → truthy v = true.
Proof. unfold missing. by destruct (truthy v). Qed.

Lemma key_string_Some v k : key_string v = Some k → v = JStr k.
Proof.
  unfold key_string. destruct v as [| | |n|s]; try done.
  destruct (String.eqb s ""); [done|]. by intros [= ->].
Qed.


(** ** Scoped uniqueness along the create path *)

Lemma lookup_of_prop (m : gmap string JsVal) a v :
  prop m a = v → v ≠ JUndefined → m !! a = Some v.
Proof.
  unfold prop. destruct (m !! a) as [x|]; simpl; [by intros ->|].
  by intros <-.
Qed.

(** Writing, under key [k], a record whose e-mail address no other User
    of its Organization holds keeps the addresses unique. *)
Lemma unique_insert us k item org email :
  emailsUniquePerOrganization us →
  item !! "orgId" = Some org →
  item !! "email" = Some email →
  (∀ k' it, k' ≠ k → us !! k' = Some it → it !! "orgId" = Some org →
            it !! "email" ≠ Some email) →
  emailsUniquePerOrganization (<[k := item]> us).
Proof.
  intros Hinv Horg Hemail Hfree k1 k2 u1 u2 org' e' H1 H2 Ho1 Ho2 He1 He2.
  destruct (decide (k1 = k)) as [->|Hn1], (decide (k2 = k)) as [->|Hn2];
    [done| | |].
  - rewrite lookup_insert_eq in H1. rewrite lookup_insert_ne in H2 by done.
    simplify_eq. by destruct (Hfree k2 u2 Hn2 H2 Ho2).
  - rewrite lookup_insert_eq in H2. rewrite lookup_insert_ne in H1 by done.
    simplify_eq. by destruct (Hfree k1 u1 Hn1 H1 Ho1).
  - rewrite lookup_insert_ne in H1, H2 by done.
    by apply (Hinv k1 k2 u1 u2 org' e').
Qed.

(** What a POST on the users route leaves behind when every service call
    answers: the tables as they were, and either the queue as it was or one
    more createUser Intent, for an e-mail address that no User of the
    Organization of the path holds. *)
Lemma createUser_outcome uuid iso event w :
  method event = "POST" → faults w = [] →
  let out := createOrUpdateUser uuid iso event w in
  tables out.2 = tables w
  ∧ (queue out.2 = queue w
     ∨ ∃ orgId userId name email createdAt updatedAt,
         queue out.2
         = (queue w ++
              [intent "createUser"
                 (object [("orgId", JStr orgId); ("userId", userId);
                          ("name", name); ("email", email);
                          ("createdAt", createdAt);
                          ("updatedAt", updatedAt)])])%list
         ∧ missing email = false
         ∧ ∀ k item, users w !! k = Some item →
                     item !! "orgId" = Some (JStr orgId) →
                     item !! "email" ≠ Some email).
Proof.
  intros Hmethod Hf out.
  split; [apply createOrUpdateUser_keeps_tables|].
  subst out. unfold createOrUpdateUser, try_catch, bind, pathParameter.
  rewrite Hmethod.
  destruct (body event) as [|[v|o]]; simpl.
  - by left.
  - destruct v; simpl; left; try done;
      by rewrite orb_true_r.
  - fold_prop.
    destruct (pathParameters event !! "orgId") as [orgId|]; simpl;
      [|by left].
    destruct (missing (JStr orgId)) eqn:Hid; simpl; [by left|].
    destruct (missing (prop o "name")) eqn:Hname; simpl; [by left|].
    destruct (missing (prop o "email")) eqn:Hemail; simpl; [by left|].
    rewrite (get_run _ _ orgId) by (try done; by apply key_string_truthy).
    simpl.
    destruct (organizations w !! orgId) as [org|]; simpl; [|by left].
    destruct (truthy (prop o "userId")); simpl;
      (rewrite (query_run _ orgId)
         by (try done; by apply key_string_truthy));
      simpl;
      (destruct (filter _ _) as [|existing more] eqn:Hitems; simpl;
       [|by left]);
      (rewrite send_run by done); simpl; right;
      eexists orgId, _, (prop o "name"), (prop o "email"), _, _;
      (split; [reflexivity|]); (split; [exact Hemail|]);
      intros k item Hk Ho He;
      (assert (item ∈ filter
                 (λ item, item !! "orgId" = Some (JStr orgId)
                          ∧ item !! "email" = Some (prop o "email"))
                 (map_to_list (users w)).*2) as Hin
         by (apply elem_of_scan; split; [done|by exists k]));
      rewrite Hitems in Hin; by apply elem_of_nil in Hin.
Qed.

(** X21. The create path keeps e-mail addresses unique per Organization:
    a POST on the users route, carried to completion on an idle queue with
    every service call of the producer answering, leaves a store that
    satisfies scoped uniqueness whenever the store it found did. *)
Lemma createUser_keeps_uniqueness uuid iso event w :
  method event = "POST" → faults w = [] → queue w = [] →
  emailsUniquePerOrganization (users w) →
  emailsUniquePerOrganization
    (users (submitAndApply (createOrUpdateUser uuid iso) event w).2).
Proof.
  intros Hmethod Hf Hq Hinv.
  destruct (createUser_outcome uuid iso event w Hmethod Hf) as [Ht Hqueue].
  unfold submitAndApply, bind.
  destruct (createOrUpdateUser uuid iso event w) as [[resp|e] w1];
    simpl in *.
  2: { injection Ht as _ ->. done. }
  assert (users w1 = users w) as Hu by (by injection Ht).
  destruct Hqueue as [Hsame|(orgId & userId & name & email & createdAt
                               & updatedAt & Hpub & Hemail & Hfree)].
  - rewrite Hsame, Hq. simpl. by rewrite Hu.
  - rewrite Hpub, Hq. simpl app.
    set (data := object _) in *.
    pose proof (deliver_create USERS_TABLE (message "createUser" data) data
                  (set_queue [] w1) eq_refl eq_refl) as Hput.
    unfold intent.
    destruct (processSqsMessages _ (set_queue [] w1)) as [[r|e] w2].
    + destruct Hput as (k & Hk & Ht2).
      simpl. rewrite (table_of_tables USERS_TABLE _ _ Ht2 : users w2 = _).
      simpl. rewrite Hu.
      assert (prop data "orgId" = JStr orgId ∧ prop data "email" = email)
        as [Hdo Hde].
      { subst data. rewrite !prop_object_cons, !prop_object_nil.
        split; repeat (case_decide; simplify_eq; try done);
          by (exfalso; eapply truthy_defined; [|done]). }
      apply (unique_insert _ _ _ (JStr orgId) email);
        [done| | |by intros k' it _; apply Hfree].
      * apply lookup_of_prop; [|done].
        by rewrite prop_pick, bool_decide_eq_true_2 by set_solver.
      * apply lookup_of_prop; [|by apply truthy_defined].
        by rewrite prop_pick, bool_decide_eq_true_2 by set_solver.
    + simpl. rewrite (table_of_tables USERS_TABLE _ _ Hput : users w2 = _).
      simpl. by rewrite Hu.
Qed.

(** ** Scoped uniqueness along the update path, for a User of the path *)

(** What a PUT that names the stored User [k] leaves behind when every
    service call answers and the store is keyed and has unique addresses:
    the tables as they were, and either the queue as it was or one more
    updateUser Intent for [k], with an e-mail address that no other User
    of the Organization of the path holds. *)
Lemma updateUser_outcome uuid iso event (o : gmap string JsVal) k w :
  method event = "PUT" → faults w = [] →
  body event = Text (Fields o) →
  prop o "userId" = JStr k → k ≠ "" →
  keyed (users w) → emailsUniquePerOrganization (users w) →
  let out := createOrUpdateUser uuid iso event w in
  tables out.2 = tables w
  ∧ (queue out.2 = queue w
     ∨ ∃ orgId name email createdAt updatedAt,
         queue out.2
         = (queue w ++
              [intent "updateUser"
                 (object [("orgId", JStr orgId); ("userId", JStr k);
                          ("name", name); ("email", email);
                          ("createdAt", createdAt);
                          ("updatedAt", updatedAt)])])%list
         ∧ pathParameters event !! "orgId" = Some orgId
         ∧ missing name = false
         ∧ missing email = false
         ∧ ∀ k' item, k' ≠ k → users w !! k' = Some item →
                      item !! "orgId" = Some (JStr orgId) →
                      item !! "email" ≠ Some email).
Proof.
  intros Hmethod Hf Hbody Hid Hk Hkeyed Hinv out.
  split; [apply createOrUpdateUser_keeps_tables|].
  subst out. unfold createOrUpdateUser, try_catch, bind, pathParameter.
  rewrite Hmethod, Hbody. simpl. fold_prop.
  destruct (pathParameters event !! "orgId") as [orgId|]; simpl;
    [|by left].
  destruct (missing (JStr orgId)) eqn:Horg; simpl; [by left|].
  destruct (missing (prop o "name")) eqn:Hname; simpl; [by left|].
  destruct (missing (prop o "email")) eqn:Hemail; simpl; [by left|].
  rewrite (get_run _ _ orgId) by (try done; by apply key_string_truthy).
  simpl.
  destruct (organizations w !! orgId) as [org|]; simpl; [|by left].
  rewrite Hid, (truthy_of_missing _ (missing_path_segment _ Hk)). simpl.
  rewrite (query_run _ orgId) by (try done; by apply key_string_truthy).
  simpl.
  destruct (filter _ _) as [|existing more] eqn:Hitems; simpl.
  - rewrite send_run by done. simpl. right.
    eexists orgId, (prop o "name"), (prop o "email"), _, _.
    split; [reflexivity|]. split; [done|]. split; [done|]. split; [done|].
    intros k' item _ Hk' Ho He.
    assert (item ∈ filter
              (λ item, item !! "orgId" = Some (JStr orgId)
                       ∧ item !! "email" = Some (prop o "email"))
              (map_to_list (users w)).*2) as Hin
      by (apply elem_of_scan; split; [done|by exists k']).
    rewrite Hitems in Hin. by apply elem_of_nil in Hin.
  - case_bool_decide as Hself; simpl; [|by left].
    rewrite send_run by done. simpl. right.
    eexists orgId, (prop o "name"), (prop o "email"), _, _.
    split; [reflexivity|]. split; [done|]. split; [done|]. split; [done|].
    intros k' item Hne Hk' Ho He.
    assert (existing ∈ filter
              (λ item, item !! "orgId" = Some (JStr orgId)
                       ∧ item !! "email" = Some (prop o "email"))
              (map_to_list (users w)).*2) as Hin
      by (rewrite Hitems; left).
    apply elem_of_scan in Hin as [[Heo Hee] [ke Hke]].
    pose proof (Hkeyed ke existing Hke) as Hkey.
    unfold prop in Hself. rewrite Hkey in Hself. simpl in Hself.
    injection Hself as ->.
    apply Hne.
    by apply (Hinv k' k item existing (JStr orgId) (prop o "email")).
Qed.

Lemma updateClauses_second t o :
  truthy (prop o (secondField t)) = true →
  list_to_map (M := gmap string JsVal) (updateClauses t o) !! secondField t
  = Some (prop o (secondField t)).
Proof.
  intros Htr. unfold updateClauses, updateExpression. rewrite Htr.
  destruct t, (truthy (prop o "name")); simpl;
    by rewrite ?lookup_insert_ne, lookup_insert_eq by done.
Qed.

(** X22. With the check the handler omits taken as a premise (the User
    named by the request is stored and belongs to the Organization of the
    path), the update path keeps e-mail addresses unique per
    Organization. *)
Lemma updateUser_keeps_uniqueness uuid iso event (o : gmap string JsVal)
    k u orgId w :
  method event = "PUT" → faults w = [] → queue w = [] →
  body event = Text (Fields o) →
  prop o "userId" = JStr k → k ≠ "" →
  pathParameters event !! "orgId" = Some orgId →
  users w !! k = Some u → u !! "orgId" = Some (JStr orgId) →
  keyed (users w) → emailsUniquePerOrganization (users w) →
  emailsUniquePerOrganization
    (users (submitAndApply (createOrUpdateUser uuid iso) event w).2).
Proof.
  intros Hmethod Hf Hq Hbody Hid Hk Hpath Hu Huo Hkeyed Hinv.
  destruct (updateUser_outcome uuid iso event o k w Hmethod Hf Hbody Hid Hk
              Hkeyed Hinv) as [Ht Hqueue].
  unfold submitAndApply, bind.
  destruct (createOrUpdateUser uuid iso event w) as [[resp|e] w1];
    simpl in *.
  2: { by rewrite (table_of_tables USERS_TABLE _ _ Ht : users w1 = _). }
  assert (users w1 = users w) as Hu1
    by apply (table_of_tables USERS_TABLE _ _ Ht).
  destruct Hqueue as [Hsame|(orgId' & name & email & createdAt & updatedAt
                               & Hpub & Hpath' & Hname & Hemail & Hfree)].
  - rewrite Hsame, Hq. simpl. by rewrite Hu1.
  - assert (orgId' = orgId) as -> by congruence.
    rewrite Hpub, Hq. simpl app.
    set (data := object _) in *.
    pose proof (deliver_update USERS_TABLE (message "updateUser" data) data
                  (set_queue [] w1) eq_refl eq_refl) as Hupd.
    unfold intent.
    assert (prop data "userId" = JStr k ∧ prop data "email" = email)
      as [Hdk Hde].
    { subst data. rewrite !prop_object_cons, !prop_object_nil.
      split; repeat (case_decide; simplify_eq; try done);
        by (exfalso; eapply truthy_defined; [|done]). }
    destruct (processSqsMessages _ (set_queue [] w1)) as [[r|e] w2]; simpl.
    + destruct Hupd as (k0 & Hk0 & _ & Ht2).
      simpl in Hk0. rewrite Hdk in Hk0.
      rewrite (key_string_truthy _ (missing_path_segment _ Hk)) in Hk0.
      injection Hk0 as <-.
      rewrite (table_of_tables USERS_TABLE _ _ Ht2 : users w2 = _).
      simpl. rewrite Hu1.
      apply (unique_insert _ _ _ (JStr orgId) email); [done| | |done].
      * pose proof (untouched_attribute USERS_TABLE data k
                      (set_queue [] w1) "orgId") as Hframe.
        simpl in Hframe. rewrite Hu1 in Hframe.
        rewrite Hframe by done. unfold attribute. simpl.
        by rewrite Hu1, Hu.
      * rewrite lookup_union.
        pose proof (updateClauses_second USERS_TABLE data) as Hsecond.
        simpl in Hsecond. rewrite Hde in Hsecond.
        rewrite (Hsecond (truthy_of_missing _ Hemail)).
        by destruct (default _ _ !! _).
    + rewrite (table_of_tables USERS_TABLE _ _ Hupd : users w2 = _).
      simpl. by rewrite Hu1.
Qed.

(** ** Where the code departs from the specification *)


(** C6, refuted as stated. A POST whose body is [null], or which has no
    body, has neither [name] nor [description], and is not answered 400:
    reading the fields throws, and the answer is 500. *)
Lemma createOrganization_without_fields :
  createOrganization sampleUuid sampleIso postNull emptyWorld
  = (Ok (buildResponse 500 (PError TypeError)),
     set_console [ErrorHandler "createOrganization" TypeError] emptyWorld)
  ∧ createOrganization sampleUuid sampleIso postNothing emptyWorld
    = (Ok (buildResponse 500 (PError SyntaxError)),
       set_console [ErrorHandler "createOrganization" SyntaxError] emptyWorld).
Proof. split; vm_compute; reflexivity. Qed.



(** C7, at the failing input. The store holds two Users of [o2] with
    different e-mail addresses.  A PUT on the path of [o1] that names the
    User [u2] and the address of [u1] passes the producer (no User of [o1]
    holds the address) and is applied by the consumer to [u2], which stays
    in [o2]: afterwards two Users of [o2] hold the same address. *)
Lemma cross_organization_update_breaks_uniqueness :
  let out :=
    submitAndApply (createOrUpdateUser sampleUuid sampleIso)
      crossOrganizationPut twoOrganizations in
  emailsUniquePerOrganization (users twoOrganizations)
  ∧ out.1 = Ok (buildResponse 202 (PUserId (JStr "u2")))
  ∧ users out.2 !! "u1"
    = Some (object [("userId", JStr "u1"); ("orgId", JStr "o2");
                    ("name", JStr "Ann"); ("email", JStr "ann@bolt.test")])
  ∧ users out.2 !! "u2"
    = Some (object [("userId", JStr "u2"); ("orgId", JStr "o2");
                    ("name", JStr "Bob"); ("email", JStr "ann@bolt.test");
                    ("updatedAt", JStr (sampleIso 1))])
  ∧ ¬ emailsUniquePerOrganization (users out.2).
Proof.
  intros out.
  assert (users out.2 !! "u1"
          = Some (object [("userId", JStr "u1"); ("orgId", JStr "o2");
                          ("name", JStr "Ann");
                          ("email", JStr "ann@bolt.test")])) as H1
    by (vm_compute; reflexivity).
  assert (users out.2 !! "u2"
          = Some (object [("userId", JStr "u2"); ("orgId", JStr "o2");
                          ("name", JStr "Bob");
                          ("email", JStr "ann@bolt.test");
                          ("updatedAt", JStr (sampleIso 1))])) as H2
    by (vm_compute; reflexivity).
  split; [|split; [by vm_compute|split; [done|split; [done|]]]].
  - intros k1 k2 u1 u2 org email Hk1 Hk2 Ho1 Ho2 He1 He2.
    unfold twoOrganizations in Hk1, Hk2. simpl in Hk1, Hk2.
    apply lookup_insert_Some in Hk1 as [[<- <-]|[? Hk1]];
      apply lookup_insert_Some in Hk2 as [[<- <-]|[? Hk2]]; try done;
      try (apply lookup_singleton_Some in Hk1 as [<- <-]);
      try (apply lookup_singleton_Some in Hk2 as [<- <-]); try done;
      vm_compute in He1, He2; congruence.
  - intros Hinv.
    by pose proof (Hinv "u1" "u2" _ _ (JStr "o2") (JStr "ann@bolt.test")
                     H1 H2 eq_refl eq_refl eq_refl eq_refl).
Qed.

(** ** The theorems at concrete inputs *)

(** [create_intent_idempotent] on the createOrganization Intent for Acme,
    delivered to an empty store. *)
Lemma create_intent_idempotent_witness :
  let m := message "createOrganization" acmeData in
  let w1 := (processSqsMessages [Text (Fields m)] emptyWorld).2 in
  m !! "operation"
  = Some (JScalar (JStr (createOperation ORGANIZATIONS_TABLE)))
  ∧ m !! "data" = Some (JObject acmeData)
  ∧ processSqsMessages [Text (Fields m)] emptyWorld
    = (Ok (buildResponse 200 PDone), w1)
  ∧ ∃ k item,
      key_string (prop acmeData (keyAttribute ORGANIZATIONS_TABLE)) = Some k
      ∧ table ORGANIZATIONS_TABLE w1 !! k = Some item
      ∧ (∀ a, prop item a =
              if bool_decide (a ∈ createAttributes ORGANIZATIONS_TABLE)
              then prop acmeData a else JUndefined)
      ∧ ∀ w2, tables w2 = tables w1 →
          tables (processSqsMessages [Text (Fields m)] w2).2 = tables w1.
Proof.
  intros m w1.
  assert (m !! "operation"
          = Some (JScalar (JStr (createOperation ORGANIZATIONS_TABLE))))
    as Hop by reflexivity.
  assert (m !! "data" = Some (JObject acmeData)) as Hdata by reflexivity.
  assert (processSqsMessages [Text (Fields m)] emptyWorld
          = (Ok (buildResponse 200 PDone), w1)) as Hrun
    by (vm_compute; reflexivity).
  split; [exact Hop|]. split; [exact Hdata|]. split; [exact Hrun|].
  exact (create_intent_idempotent ORGANIZATIONS_TABLE m acmeData emptyWorld w1
           (buildResponse 200 PDone) Hop Hdata Hrun).
Defined.

(** [update_intent_idempotent] on an updateUser Intent for the stored
    User [u1]. *)
Lemma update_intent_idempotent_witness :
  let m := message "updateUser" annRenamed in
  let w1 := (processSqsMessages [Text (Fields m)] acmeWorld).2 in
  m !! "operation" = Some (JScalar (JStr (updateOperation USERS_TABLE)))
  ∧ m !! "data" = Some (JObject annRenamed)
  ∧ processSqsMessages [Text (Fields m)] acmeWorld
    = (Ok (buildResponse 200 PDone), w1)
  ∧ ∃ k,
      key_string (prop annRenamed (keyAttribute USERS_TABLE)) = Some k
      ∧ attribute USERS_TABLE w1 k "updatedAt"
        = Some (prop annRenamed "updatedAt")
      ∧ clock w1 = clock acmeWorld
      ∧ (∀ a, attribute USERS_TABLE w1 k a = attribute USERS_TABLE acmeWorld k a
              ∨ (prop annRenamed a ≠ JUndefined
                 ∧ attribute USERS_TABLE w1 k a = Some (prop annRenamed a)))
      ∧ ∀ w2, tables w2 = tables w1 →
          tables (processSqsMessages [Text (Fields m)] w2).2 = tables w1.
Proof.
  intros m w1.
  assert (m !! "operation"
          = Some (JScalar (JStr (updateOperation USERS_TABLE))))
    as Hop by reflexivity.
  assert (m !! "data" = Some (JObject annRenamed)) as Hdata by reflexivity.
  assert (processSqsMessages [Text (Fields m)] acmeWorld
          = (Ok (buildResponse 200 PDone), w1)) as Hrun
    by (vm_compute; reflexivity).
  split; [exact Hop|]. split; [exact Hdata|]. split; [exact Hrun|].
  exact (update_intent_idempotent USERS_TABLE m annRenamed acmeWorld w1
           (buildResponse 200 PDone) Hop Hdata Hrun).
Defined.

(** [batch_error_propagates] on a batch of three whose second record is
    rejected by a throttled store: the Organization the first record
    created stays. *)
Lemma batch_error_propagates_witness :
  let pre := [intent "createOrganization" acmeData] in
  let r := intent "createUser" annData in
  let post := [intent "updateOrganization" acmeRedescribed] in
  let e := ServiceError "ThrottlingException" in
  let w1 := (forEach processRecord pre throttled).2 in
  let w2 := (applyRecord r w1).2 in
  forEach processRecord pre throttled = (Ok tt, w1)
  ∧ applyRecord r w1 = (Throw e, w2)
  ∧ processSqsMessages (pre ++ r :: post) throttled
    = (Throw e, set_console (console w2 ++ [ErrorSqsRecord r e]) w2)
  ∧ tables w2 = tables w1
  ∧ organizations w2 !! "o1" = Some acmeData.
Proof.
  intros pre r post e w1 w2.
  assert (forEach processRecord pre throttled = (Ok tt, w1)) as Hpre
    by (vm_compute; reflexivity).
  assert (applyRecord r w1 = (Throw e, w2)) as Hr
    by (vm_compute; reflexivity).
  split; [exact Hpre|]. split; [exact Hr|].
  destruct (batch_error_propagates pre r post throttled w1 w2 e Hpre Hr)
    as [Hout Htables].
  split; [exact Hout|]. split; [exact Htables|].
  vm_compute. reflexivity.
Defined.


(** [partial_update_frame] on a description-only update of [o1] and on an
    updateUser Intent for [u1] that carries another [orgId]. *)
Lemma partial_update_frame_witness :
  let m := message "updateOrganization" acmeRedescribed in
  let m' := message "updateUser" annRenamed in
  let w1 := (processSqsMessages [Text (Fields m)] acmeWorld).2 in
  (m !! "operation" = Some (JScalar (JStr "updateOrganization"))
   ∧ m !! "data" = Some (JObject acmeRedescribed)
   ∧ acmeRedescribed !! "name" = None
   ∧ processSqsMessages [Text (Fields m)] acmeWorld
     = (Ok (buildResponse 200 PDone), w1)
   ∧ ∃ k, key_string (prop acmeRedescribed "orgId") = Some k
          ∧ attribute ORGANIZATIONS_TABLE w1 k "name"
            = attribute ORGANIZATIONS_TABLE acmeWorld k "name"
          ∧ attribute ORGANIZATIONS_TABLE w1 k "updatedAt"
            = Some (prop acmeRedescribed "updatedAt"))
  ∧ (m' !! "operation" = Some (JScalar (JStr "updateUser"))
     ∧ attribute USERS_TABLE
         (processSqsMessages [Text (Fields m')] acmeWorld).2 "u1" "orgId"
       = attribute USERS_TABLE acmeWorld "u1" "orgId").
Proof.
  intros m m' w1. split.
  - assert (m !! "operation" = Some (JScalar (JStr "updateOrganization")))
      as Hop by reflexivity.
    assert (m !! "data" = Some (JObject acmeRedescribed)) as Hdata
      by reflexivity.
    assert (acmeRedescribed !! "name" = None) as Hname by reflexivity.
    assert (processSqsMessages [Text (Fields m)] acmeWorld
            = (Ok (buildResponse 200 PDone), w1)) as Hrun
      by (vm_compute; reflexivity).
    split; [exact Hop|]. split; [exact Hdata|]. split; [exact Hname|].
    split; [exact Hrun|].
    exact (proj1 (partial_update_frame m acmeWorld) acmeRedescribed
             (buildResponse 200 PDone) w1 Hop Hdata Hname Hrun).
  - assert (m' !! "operation" = Some (JScalar (JStr "updateUser")))
      as Hop by reflexivity.
    split; [exact Hop|].
    exact (proj2 (partial_update_frame m' acmeWorld) Hop "u1" "orgId"
             ltac:(discriminate) ltac:(discriminate) ltac:(discriminate)
             ltac:(discriminate)).
Defined.

(** [submitCreateOrganization_cases] on the request for Acme: refused by a
    store that holds Acme, accepted by an empty store. *)
Lemma submitCreateOrganization_cases_witness :
  let name := prop acmeRequest "name" in
  let description := prop acmeRequest "description" in
  let rejected := createOrganization sampleUuid sampleIso postAcme acmeWorld in
  let out := createOrganization sampleUuid sampleIso postAcme emptyWorld in
  let orgId := JStr (sampleUuid (entropy emptyWorld)) in
  requestFields postAcme = inr acmeRequest
  ∧ missing name || missing description = false
  ∧ faults acmeWorld = []
  ∧ (∃ k item, organizations acmeWorld !! k = Some item
               ∧ item !! "name" = Some name)
  ∧ rejected = (Ok (buildResponse 409 PMessage), acmeWorld)
  ∧ faults emptyWorld = []
  ∧ (∀ k item, organizations emptyWorld !! k = Some item →
               item !! "name" ≠ Some name)
  ∧ out.1 = Ok (buildResponse 202 (POrgId orgId))
  ∧ queue out.2 =
    (queue emptyWorld ++
       [intent "createOrganization"
          (object [("orgId", orgId); ("name", name);
                   ("description", description);
                   ("createdAt", JStr (sampleIso (clock emptyWorld)));
                   ("updatedAt", JStr (sampleIso (S (clock emptyWorld))))])])%list
  ∧ entropy out.2 = S (entropy emptyWorld)
  ∧ tables out.2 = tables emptyWorld.
Proof.
  intros name description rejected out orgId.
  assert (requestFields postAcme = inr acmeRequest) as Hbody by reflexivity.
  assert (missing name || missing description = false) as Hpresent
    by reflexivity.
  assert (faults acmeWorld = []) as Hanswers by reflexivity.
  assert (faults emptyWorld = []) as Hanswers' by reflexivity.
  assert (∃ k item, organizations acmeWorld !! k = Some item
                    ∧ item !! "name" = Some name) as Htaken.
  { exists "o1", acmeData. split; reflexivity. }
  assert (∀ k item, organizations emptyWorld !! k = Some item →
                    item !! "name" ≠ Some name) as Hfree.
  { intros k item Hk. simpl in Hk. rewrite lookup_empty in Hk.
    discriminate Hk. }
  split; [exact Hbody|]. split; [exact Hpresent|]. split; [exact Hanswers|].
  split; [exact Htaken|].
  split.
  { exact (proj1 (proj2 (submitCreateOrganization_cases
                           sampleUuid sampleIso postAcme acmeWorld)
                    Hanswers)
             Htaken). }
  split; [exact Hanswers'|]. split; [exact Hfree|].
  destruct (proj2 (proj2 (submitCreateOrganization_cases
                            sampleUuid sampleIso postAcme emptyWorld)
                     Hanswers')
              Hfree) as (Hresp & Hqueue & Hentropy).
  split; [exact Hresp|]. split; [exact Hqueue|]. split; [exact Hentropy|].
  exact (proj1 (submitCreateOrganization_cases
                  sampleUuid sampleIso postAcme emptyWorld)).
Defined.


(** [getUser_scoped] on the User [u1] of [o1]. *)
Lemma getUser_scoped_witness :
  let out := getUser getAnn acmeWorld in
  pathParameters getAnn !! "orgId" = Some "o1"
  ∧ pathParameters getAnn !! "userId" = Some "u1"
  ∧ "o1" ≠ "" ∧ "u1" ≠ ""
  ∧ faults acmeWorld = []
  ∧ users acmeWorld !! "u1" = Some annData
  ∧ prop annData "orgId" = JStr "o1"
  ∧ out.2 = acmeWorld
  ∧ out.1 = Ok (buildResponse 200 (PUser annData)).
Proof.
  intros out.
  assert (pathParameters getAnn !! "orgId" = Some "o1") as Horg
    by reflexivity.
  assert (pathParameters getAnn !! "userId" = Some "u1") as Huser
    by reflexivity.
  assert ("o1" ≠ "") as Ho by discriminate.
  assert ("u1" ≠ "") as Hu by discriminate.
  assert (users acmeWorld !! "u1" = Some annData) as Hget by reflexivity.
  assert (prop annData "orgId" = JStr "o1") as Hscope by reflexivity.
  destruct (proj2 (getUser_scoped getAnn acmeWorld) "o1" "u1"
              Horg Huser Ho Hu eq_refl) as (Hworld & Hiff & _).
  split; [exact Horg|]. split; [exact Huser|]. split; [exact Ho|].
  split; [exact Hu|]. split; [reflexivity|]. split; [exact Hget|].
  split; [exact Hscope|]. split; [exact Hworld|].
  exact (proj2 (Hiff annData) (conj Hget Hscope)).
Defined.


(** * Further properties of the handlers *)

(** ** Producers publish exactly when they accept *)

Lemma keeps_queue_uuidv4 uuid : keeps queue (uuidv4 uuid).
Proof. by intros w. Qed.

Lemma keeps_queue_toISOString iso : keeps queue (toISOString iso).
Proof. by intros w. Qed.

Lemma publishing_reject code p :
  code ≠ 202 → publishing (ret (buildResponse code p)).
Proof. intros Hc w. simpl. by rewrite decide_False. Qed.

Lemma publishing_bind {A} (m : M A) (k : A -> M Response) :
  keeps queue m → (∀ a, publishing (k a)) → publishing (bind m k).
Proof.
  intros Hm Hk w. unfold bind. specialize (Hm w).
  destruct (m w) as [[a|e] w1]; simpl in *; [|done].
  specialize (Hk a w1). destruct (k a w1) as [[r|e] w2].
  - destruct (decide (statusCode r = 202)); by rewrite <- Hm.
  - by rewrite <- Hm.
Qed.

Lemma publishing_send message p :
  publishing (sqs_sendMessage message ;;; ret (buildResponse 202 p)).
Proof.
  intros w. unfold bind, sqs_sendMessage.
  destruct (service_cases
              (fun w => (Ok tt, set_queue (queue w ++ [message]) w)) w)
    as [[e ->]|(w0 & _ & Hq & _ & _ & _ & ->)]; simpl; [done|].
  exists message. by rewrite Hq.
Qed.

Lemma publishing_catch (m : M Response) h :
  publishing m → acceptsByPublishing (try_catch m (internalError h)).
Proof.
  intros Hm w. unfold try_catch. specialize (Hm w).
  destruct (m w) as [[r|e] w1]; simpl.
  - exists r. split; [done|].
    destruct (decide (statusCode r = 202)); by split.
  - exists (buildResponse 500 (PError e)). split; [done|].
    split; [done|]. by intros _.
Qed.

Ltac publishing_step :=
  first
    [ apply publishing_send
    | (apply publishing_reject; discriminate)
    | (apply publishing_bind;
       [first [ apply keeps_queue_uuidv4 | apply keeps_queue_toISOString
              | by repeat keeps_step ]
       | intros ?])
    | match goal with
      | |- publishing (if ?b then _ else _) => destruct b
      | |- publishing (match ?x with _ => _ end) => destruct x
      end ].

Lemma createOrganization_publishing uuid iso event :
  acceptsByPublishing (createOrganization uuid iso event).
Proof.
  unfold createOrganization. apply publishing_catch. repeat publishing_step.
Qed.

(** X1. Each of the three producers resolves with a response whatever the
    store and the queue do, and it has appended exactly one message to the
    queue when the status is 202 and left the queue as it was in every
    other case (400, 404, 409 and 500 alike). *)
Theorem producers_publish_iff_accepted uuid iso event :
  acceptsByPublishing (createOrganization uuid iso event)
  ∧ acceptsByPublishing (createOrUpdateUser uuid iso event)
  ∧ acceptsByPublishing (updateOrganization iso event).
Proof.
  split; [apply createOrganization_publishing|]. split.
  - unfold createOrUpdateUser. apply publishing_catch.
    repeat publishing_step.
  - unfold updateOrganization. apply publishing_catch.
    repeat publishing_step.
Qed.

(** ** What the consumer leaves alone, and how batches compose *)

(** X2. The consumer never publishes to the queue, never reads the clock
    and never draws an identifier, whatever the records and whether or not
    the invocation fails. *)
Theorem consumer_touches_only_store_and_console Records w :
  let out := processSqsMessages Records w in
  queue out.2 = queue w ∧ clock out.2 = clock w ∧ entropy out.2 = entropy w.
Proof.
  intros out. subst out. split; [|split].
  - by apply (consumer_keeps queue); [..|intros []].
  - by apply (consumer_keeps clock); [..|intros []].
  - by apply (consumer_keeps entropy); [..|intros []].
Qed.

(** X3. Batching is immaterial: when a batch succeeds, a longer batch that
    starts with it ends as a second invocation on the remaining records
    would; when it fails, the longer batch fails with the same error in the
    same world, and none of the remaining records is looked at. *)
Theorem batch_splits xs ys w :
  match processSqsMessages xs w with
  | (Ok _, w1) =>
      processSqsMessages (xs ++ ys) w = processSqsMessages ys w1
  | (Throw e, w1) => processSqsMessages (xs ++ ys) w = (Throw e, w1)
  end.
Proof.
  unfold processSqsMessages. unfold bind at 1 2 4.
  rewrite forEach_app. unfold bind at 1 3.
  destruct (forEach processRecord xs w) as [[[]|e] w1]; simpl; [|done].
  unfold bind. by destruct (forEach processRecord ys w1) as [[[]|e] w2].
Qed.

(** X4. A message of a recognized operation whose [data] is absent or
    [null] is not skipped: reading its first field raises a [TypeError],
    which is logged and rethrown; the invocation fails there with the
    tables and the queue as they were and the rest of the batch not
    processed. *)
Theorem intent_without_data_fails_batch (m : gmap string Json) rest w :
  recognized (operationOf m) = true →
  m !! "data" = None ∨ m !! "data" = Some (JScalar JNull) →
  processSqsMessages (Text (Fields m) :: rest) w
  = (Throw TypeError,
     set_console (console w ++ [ErrorSqsRecord (Text (Fields m)) TypeError])
       w).
Proof.
  intros Hop Hdata.
  rewrite processSqsMessages_cons, processRecord_unfold.
  assert (applyRecord (Text (Fields m)) w = (Throw TypeError, w)) as ->;
    [|done].
  pose proof (recognized_hasStringForm _ Hop) as Hs.
  unfold recognized, operationOf in Hop, Hs.
  unfold applyRecord, bind, ToString; simpl. rewrite Hs. simpl.
  assert (default (JScalar JUndefined) (m !! "data") = JScalar JUndefined
          ∨ default (JScalar JUndefined) (m !! "data") = JScalar JNull)
    as [-> | ->] by (destruct Hdata as [-> | ->]; auto);
    repeat (destruct (is_case _ _); simpl in *; try done).
Qed.

(** ** The read handlers *)

Lemma scan_all_run t w :
  faults w = [] →
  dynamoDb_scan_all t w = (Ok (map_to_list (table t w)).*2, w).
Proof. intros Hf. unfold dynamoDb_scan_all. by rewrite service_nofault. Qed.

Lemma query_all_run orgId o w :
  faults w = [] → key_string orgId = Some o →
  dynamoDb_query_OrgId_index_all orgId w
  = (Ok (filter (fun item => item !! "orgId" = Some (JStr o))
           (map_to_list (users w)).*2), w).
Proof.
  intros Hf Hk. unfold dynamoDb_query_OrgId_index_all.
  by rewrite service_nofault, Hk.
Qed.

(** What a point read returns when it returns, whatever the faults. *)
Lemma get_outcome t key w :
  match dynamoDb_get t key w with
  | (Ok r, w') =>
      (∃ k, key_string key = Some k ∧ r = table t w !! k)
      ∧ tables w' = tables w
  | (Throw _, w') => tables w' = tables w
  end.
Proof.
  unfold dynamoDb_get.
  destruct (service_cases
              (match key_string key with
               | Some k => fun w => (Ok (table t w !! k), w)
               | None => throw ValidationException
               end) w) as [[e ->]|(w0 & Ht & _ & _ & _ & _ & ->)]; [done|].
  destruct (key_string key) as [k|]; [|done]. simpl.
  split; [|done]. exists k. split; [done|].
  by rewrite (table_of_tables t _ _ Ht).
Qed.

Lemma query_all_outcome orgId w :
  match dynamoDb_query_OrgId_index_all orgId w with
  | (Ok Items, w') =>
      ∃ o, key_string orgId = Some o
           ∧ Items = filter (fun item => item !! "orgId" = Some (JStr o))
                       (map_to_list (users w)).*2
  | (Throw _, _) => True
  end.
Proof.
  unfold dynamoDb_query_OrgId_index_all.
  destruct (service_cases
              (match key_string orgId with
               | Some o =>
                   fun w =>
                     (Ok (filter (fun item => item !! "orgId" = Some (JStr o))
                            (map_to_list (users w)).*2), w)
               | None => throw ValidationException
               end) w) as [[e ->]|(w0 & Ht & _ & _ & _ & _ & ->)]; [done|].
  destruct (key_string orgId) as [o|]; [|done]. simpl.
  exists o. split; [done|].
  by rewrite (table_of_tables USERS_TABLE _ _ Ht : users w0 = users w).
Qed.

Lemma keeps_scan_all {X} (view : World -> X) t :
  (∀ f w, view (set_faults f w) = view w) →
  keeps view (dynamoDb_scan_all t).
Proof. intros Hf. by apply keeps_service. Qed.

Lemma keeps_query_all {X} (view : World -> X) orgId :
  (∀ f w, view (set_faults f w) = view w) →
  keeps view (dynamoDb_query_OrgId_index_all orgId).
Proof.
  intros Hf. apply keeps_service; [done|].
  destruct (key_string orgId); [done|apply keeps_throw].
Qed.

Lemma keeps_internalFailure {X} (view : World -> X) h e :
  (∀ c w, view (set_console c w) = view w) →
  keeps view (internalFailure h e).
Proof. intros Hc w. apply Hc. Qed.

Ltac keeps_reads :=
  repeat first
    [ by apply keeps_scan_all | by apply keeps_query_all
    | by apply keeps_internalFailure | keeps_step; try done ].

(** X5. The three read handlers of the record-carrying kind never write:
    whatever the request and whatever the services do, the tables and the
    queue are as they were. *)
Theorem reads_are_read_only event w :
  (tables (getOrganization event w).2 = tables w
   ∧ queue (getOrganization event w).2 = queue w)
  ∧ (tables (getAllOrganizations event w).2 = tables w
     ∧ queue (getAllOrganizations event w).2 = queue w)
  ∧ (tables (getAllUsersByOrganization event w).2 = tables w
     ∧ queue (getAllUsersByOrganization event w).2 = queue w).
Proof.
  repeat split.
  - revert w. change (keeps tables (getOrganization event)).
    unfold getOrganization. keeps_reads.
  - revert w. change (keeps queue (getOrganization event)).
    unfold getOrganization. keeps_reads.
  - revert w. change (keeps tables (getAllOrganizations event)).
    unfold getAllOrganizations. keeps_reads.
  - revert w. change (keeps queue (getAllOrganizations event)).
    unfold getAllOrganizations. keeps_reads.
  - revert w. change (keeps tables (getAllUsersByOrganization event)).
    unfold getAllUsersByOrganization. keeps_reads.
  - revert w. change (keeps queue (getAllUsersByOrganization event)).
    unfold getAllUsersByOrganization. keeps_reads.
Qed.


(** X7. [getAllOrganizations], when the store answers, answers 200 with
    the whole collection: a record is in the list exactly when the table
    holds it, the list is as long as the table is large, and the body has
    a [message] exactly when the table is empty; the world is unchanged. *)
Theorem getAllOrganizations_lists_store event w :
  faults w = [] →
  ∃ withMessage items,
    getAllOrganizations event w
    = (Ok (buildReply 200 (BOrganizations withMessage items)), w)
    ∧ (withMessage = true ↔ organizations w = ∅)
    ∧ length items = size (organizations w)
    ∧ ∀ item, item ∈ items ↔ ∃ k, organizations w !! k = Some item.
Proof.
  intros Hf. unfold getAllOrganizations, try_catch, bind.
  rewrite scan_all_run by done. simpl.
  destruct (map_to_list (organizations w)) as [|kv rest] eqn:Hl; simpl.
  - apply map_to_list_empty_iff in Hl.
    exists true, []. split; [done|]. split; [done|].
    split; [by rewrite Hl, map_size_empty|].
    intros item. rewrite Hl. split; [by intros ?%elem_of_nil|].
    intros [k Hk]. by rewrite lookup_empty in Hk.
  - exists false, (kv.2 :: rest.*2). split; [done|]. split.
    { split; [done|]. intros He. rewrite He, map_to_list_empty in Hl.
      discriminate Hl. }
    split.
    { rewrite <- length_map_to_list, Hl. simpl. by rewrite length_fmap. }
    intros item.
    change (kv.2 :: rest.*2) with ((kv :: rest).*2). rewrite <- Hl.
    rewrite list_elem_of_fmap. split.
    + intros ([k it] & -> & Hin). exists k. by apply elem_of_map_to_list.
    + intros [k Hk]. exists (k, item). split; [done|].
      by apply elem_of_map_to_list.
Qed.

(** X8. [getAllUsersByOrganization], for an [orgId] in the path and with
    the store answering: 404 when no Organization is stored under it;
    otherwise 200 with exactly the stored Users whose [orgId] attribute is
    that identifier (a [message] is added exactly when there is none); the
    world is unchanged. *)
Theorem getAllUsersByOrganization_scoped event orgId w :
  pathParameters event !! "orgId" = Some orgId → orgId ≠ "" →
  faults w = [] →
  let out := getAllUsersByOrganization event w in
  (organizations w !! orgId = None →
   out = (Ok (buildReply 404 BMessage), w))
  ∧ (is_Some (organizations w !! orgId) →
     ∃ withMessage items,
       out = (Ok (buildReply 200 (BUsers withMessage items)), w)
       ∧ (withMessage = true ↔ items = [])
       ∧ ∀ item, item ∈ items
                 ↔ item !! "orgId" = Some (JStr orgId)
                   ∧ ∃ k, users w !! k = Some item).
Proof.
  intros Hpath Ho Hf out. subst out.
  unfold getAllUsersByOrganization, try_catch, bind, pathParameter.
  rewrite Hpath. simpl. rewrite missing_path_segment by done.
  rewrite (get_run _ _ orgId)
    by (try done; by apply key_string_truthy, missing_path_segment).
  simpl. split.
  - by intros ->.
  - intros [org ->].
    rewrite (query_all_run _ orgId)
      by (try done; by apply key_string_truthy, missing_path_segment).
    simpl.
    destruct (filter _ _) as [|first more] eqn:Hitems; simpl.
    + exists true, []. split; [done|]. split; [done|].
      intros item. rewrite <- Hitems. apply elem_of_scan.
    + exists false, (first :: more). split; [done|]. split; [done|].
      intros item. rewrite <- Hitems. apply elem_of_scan.
Qed.

(** X9. A stored User record that has no [orgId] attribute (such as the
    record an updateUser Intent creates for a [userId] the store did not
    hold) cannot be read back: whatever the request and the faults,
    [getUser] for that [userId] never answers 200, and no list returned by
    [getAllUsersByOrganization] contains the record. *)
Theorem orgless_user_unreachable event w k item :
  users w !! k = Some item →
  item !! "orgId" = None →
  (pathParameters event !! "userId" = Some k →
   ∀ r, (getUser event w).1 = Ok r → statusCode r ≠ 200)
  ∧ (∀ withMessage items,
       (getAllUsersByOrganization event w).1
       = Ok (buildReply 200 (BUsers withMessage items)) →
       item ∉ items).
Proof.
  intros Hk Horgless. split.
  - intros Hpath r. unfold getUser, try_catch, bind, pathParameter.
    rewrite Hpath. simpl.
    destruct (pathParameters event !! "orgId") as [orgId|]; simpl;
      [|by intros [= <-]].
    destruct (missing (JStr orgId) || missing (JStr k)); simpl;
      [by intros [= <-]|].
    pose proof (get_outcome USERS_TABLE (JStr k) w) as Hget.
    destruct (dynamoDb_get USERS_TABLE (JStr k) w) as [[found|e] w'];
      simpl; [|by intros [= <-]].
    destruct Hget as [(k' & Hkey & ->) _].
    unfold key_string in Hkey. destruct (String.eqb k ""); simplify_eq.
    simpl. rewrite Hk. unfold prop. rewrite Horgless. simpl.
    by intros [= <-].
  - intros withMessage items.
    unfold getAllUsersByOrganization, try_catch, bind.
    destruct (missing (pathParameter event "orgId")); simpl; [done|].
    destruct (dynamoDb_get ORGANIZATIONS_TABLE _ w) as [[[org|]|e] w'];
      simpl; [|done|done].
    pose proof (query_all_outcome (pathParameter event "orgId") w') as Hq.
    destruct (dynamoDb_query_OrgId_index_all _ w') as [[Items|e] w''];
      simpl; [|done].
    destruct Hq as (o & _ & ->).
    destruct (filter _ _) as [|first more] eqn:Hitems; simpl.
    + intros [= <- <-]. by intros ?%elem_of_nil.
    + intros [= <- <-]. rewrite <- Hitems.
      intros [Ho _]%list_elem_of_filter. by rewrite Horgless in Ho.
Qed.

(** ** From the request to the record: the pipeline end to end *)

Lemma put_run t Item k w :
  faults w = [] →
  key_string (prop Item (keyAttribute t)) = Some k →
  index_key_ok t Item = true →
  dynamoDb_put t Item w
  = (Ok tt, set_table t (<[k := Item]> (table t w)) w).
Proof.
  intros Hf Hk Hi. unfold dynamoDb_put.
  by rewrite service_nofault, Hk, Hi.
Qed.

Lemma prop_object_notin fields a :
  a ∉ fields.*1 → prop (object fields) a = JUndefined.
Proof.
  induction fields as [|[k v] rest IH]; intros Hnotin.
  - apply prop_object_nil.
  - rewrite prop_object_cons.
    rewrite fmap_cons, not_elem_of_cons in Hnotin.
    destruct Hnotin as [Hne Hrest]. simpl in Hne.
    rewrite decide_False by done. by apply IH.
Qed.


Lemma prop_object_lookup fields a v :
  NoDup fields.*1 → (a, v) ∈ fields → prop (object fields) a = v.
Proof.
  induction fields as [|[k x] rest IH]; intros Hnodup Hin.
  - by apply elem_of_nil in Hin.
  - rewrite fmap_cons in Hnodup. apply NoDup_cons in Hnodup as [Hk Hrest].
    rewrite prop_object_cons.
    apply elem_of_cons in Hin as [[= -> ->]|Hin].
    + rewrite decide_True by done.
      destruct (decide (x = JUndefined)) as [->|]; [|done].
      by apply prop_object_notin.
    + rewrite decide_False; [by apply IH|].
      intros ->. apply Hk. apply list_elem_of_fmap. by exists (k, v).
Qed.





(** ** Uniqueness of Organization names along the create path *)

Lemma scan_outcome t a v w :
  match dynamoDb_scan t a v w with
  | (Ok Items, w') =>
      Items = filter (fun item => item !! a = Some v)
                (map_to_list (table t w)).*2
      ∧ tables w' = tables w
      ∧ queue w' = queue w
  | (Throw _, w') => tables w' = tables w
  end.
Proof.
  unfold dynamoDb_scan.
  destruct (service_cases
              (fun w =>
                 (Ok (filter (fun item => item !! a = Some v)
                        (map_to_list (table t w)).*2), w)) w)
    as [[e ->]|(w0 & Ht & Hq & _ & _ & _ & ->)]; [done|].
  simpl. by rewrite (table_of_tables t _ _ Ht).
Qed.

Lemma query_outcome orgId email w :
  match dynamoDb_query_OrgId_index orgId email w with
  | (Ok Items, w') =>
      (∃ o, key_string orgId = Some o
            ∧ Items = filter (fun item => item !! "orgId" = Some (JStr o)
                                          ∧ item !! "email" = Some email)
                        (map_to_list (users w)).*2)
      ∧ tables w' = tables w
  | (Throw _, w') => tables w' = tables w
  end.
Proof.
  unfold dynamoDb_query_OrgId_index.
  destruct (service_cases
              (match key_string orgId with
               | Some o =>
                   fun w =>
                     (Ok (filter
                            (fun item => item !! "orgId" = Some (JStr o)
                                         ∧ item !! "email" = Some email)
                            (map_to_list (users w)).*2), w)
               | None => throw ValidationException
               end) w) as [[e ->]|(w0 & Ht & _ & _ & _ & _ & ->)]; [done|].
  destruct (key_string orgId) as [o|]; [|done]. simpl.
  split; [|done]. exists o. split; [done|].
  by rewrite (table_of_tables USERS_TABLE _ _ Ht : users w0 = users w).
Qed.

Lemma scan_nil_free (P : gmap string JsVal -> Prop) `{!∀ x, Decision (P x)}
    (tbl : gmap string (gmap string JsVal)) :
  filter P (map_to_list tbl).*2 = [] →
  ∀ k item, tbl !! k = Some item → ¬ P item.
Proof.
  intros Hnil k item Hk HP.
  assert (item ∈ filter P (map_to_list tbl).*2) as Hin
    by (apply elem_of_scan; eauto).
  rewrite Hnil in Hin. by apply elem_of_nil in Hin.
Qed.

(** Writing, under any key, a record whose name no stored Organization
    has keeps the names unique. *)
Lemma names_insert orgs k item name :
  namesUnique orgs →
  (∀ a, item !! "name" = Some a → a = name) →
  (∀ k' it, orgs !! k' = Some it → it !! "name" ≠ Some name) →
  namesUnique (<[k := item]> orgs).
Proof.
  intros Hinv Hname Hfree k1 k2 o1 o2 n H1 H2 Hn1 Hn2.
  destruct (decide (k1 = k)) as [->|Hne1], (decide (k2 = k)) as [->|Hne2];
    [done| | |].
  - rewrite lookup_insert_eq in H1. rewrite lookup_insert_ne in H2 by done.
    simplify_eq. rewrite (Hname _ Hn1) in Hn2. by destruct (Hfree k2 o2 H2).
  - rewrite lookup_insert_eq in H2. rewrite lookup_insert_ne in H1 by done.
    simplify_eq. rewrite (Hname _ Hn2) in Hn1. by destruct (Hfree k1 o1 H1).
  - rewrite lookup_insert_ne in H1, H2 by done.
    by apply (Hinv k1 k2 o1 o2 n).
Qed.

(** What POST /organizations leaves behind, whatever the faults: the
    tables as they were, and either the queue as it was or one more
    createOrganization Intent for a name no stored Organization has. *)
Lemma createOrganization_outcome uuid iso event w :
  let out := createOrganization uuid iso event w in
  tables out.2 = tables w
  ∧ (queue out.2 = queue w
     ∨ ∃ orgId name description createdAt updatedAt,
         queue out.2
         = (queue w ++
              [intent "createOrganization"
                 (object [("orgId", orgId); ("name", name);
                          ("description", description);
                          ("createdAt", createdAt);
                          ("updatedAt", updatedAt)])])%list
         ∧ missing name = false
         ∧ ∀ k item, organizations w !! k = Some item →
                     item !! "name" ≠ Some name).
Proof.
  intros out. split; [apply createOrganization_keeps_tables|].
  destruct (createOrganization_publishing uuid iso event w)
    as (r & Hr & Hyes & Hno).
  subst out.
  destruct (decide (statusCode r = 202)) as [H202|H202]; [|by left; apply Hno].
  clear Hyes Hno. revert Hr.
  unfold createOrganization, try_catch, bind.
  destruct (body event) as [|[v|o]]; simpl.
  - intros [= <-]. done.
  - destruct v; simpl; intros [= <-]; done.
  - fold_prop.
    destruct (missing (prop o "name")) eqn:Hname; simpl;
      [intros [= <-]; done|].
    destruct (missing (prop o "description")); simpl;
      [intros [= <-]; done|].
    pose proof (scan_outcome ORGANIZATIONS_TABLE "name" (prop o "name") w)
      as Hscan.
    destruct (dynamoDb_scan _ _ _ w) as [[Items|e] w1]; simpl;
      [|intros [= <-]; done].
    destruct Hscan as (-> & Ht1 & Hq1).
    destruct (filter _ _) as [|first more] eqn:Hitems; simpl;
      [|intros [= <-]; done].
    unfold sqs_sendMessage.
    match goal with
    | |- context [service ?call ?w0] =>
        destruct (service_cases call w0)
          as [[e ->]|(w2 & _ & Hq & _ & _ & _ & ->)]
    end; simpl; [intros [= <-]; done|].
    intros _. right.
    eexists _, (prop o "name"), _, _, _.
    split; [by rewrite Hq; simpl; rewrite Hq1|]. split; [done|].
    intros k item Hk He.
    by apply (scan_nil_free _ _ Hitems k item Hk).
Qed.

(** X12. Creating Organizations keeps their names unique: a POST
    /organizations carried to completion on an idle queue, whatever the
    request and whatever faults the services raise, leaves a store in which
    no two Organizations share a name, provided the store it found was
    so. *)
Theorem createOrganization_keeps_names uuid iso event w :
  queue w = [] →
  namesUnique (organizations w) →
  namesUnique
    (organizations (submitAndApply (createOrganization uuid iso) event w).2).
Proof.
  intros Hq Hinv.
  destruct (createOrganization_outcome uuid iso event w) as [Ht Hqueue].
  unfold submitAndApply, bind.
  destruct (createOrganization uuid iso event w) as [[resp|e] w1];
    simpl in *.
  2: { by rewrite (table_of_tables ORGANIZATIONS_TABLE _ _ Ht
                     : organizations w1 = _). }
  assert (organizations w1 = organizations w) as Ho1
    by apply (table_of_tables ORGANIZATIONS_TABLE _ _ Ht).
  destruct Hqueue as [Hsame|(orgId & name & description & createdAt
                               & updatedAt & Hpub & Hname & Hfree)].
  - rewrite Hsame, Hq. simpl. by rewrite Ho1.
  - rewrite Hpub, Hq. simpl app.
    set (data := object _) in *.
    pose proof (deliver_create ORGANIZATIONS_TABLE
                  (message "createOrganization" data) data
                  (set_queue [] w1) eq_refl eq_refl) as Hput.
    unfold intent.
    destruct (processSqsMessages _ (set_queue [] w1)) as [[r|e] w2]; simpl.
    + destruct Hput as (k & _ & Ht2).
      rewrite (table_of_tables ORGANIZATIONS_TABLE _ _ Ht2
                 : organizations w2 = _).
      simpl. rewrite Ho1.
      apply (names_insert _ _ _ name); [done| |done].
      intros a Ha.
      assert (prop (pick (createAttributes ORGANIZATIONS_TABLE) data) "name"
              = name) as Hp.
      { rewrite prop_pick, bool_decide_eq_true_2 by set_solver.
        subst data. apply prop_object_lookup; [|set_solver].
        simpl. apply (bool_decide_unpack _). by vm_compute. }
      unfold prop in Hp. simpl createAttributes in Hp.
      rewrite Ha in Hp. done.
    + rewrite (table_of_tables ORGANIZATIONS_TABLE _ _ Hput
                 : organizations w2 = _).
      simpl. by rewrite Ho1.
Qed.

(** ** The synchronous revision *)

Lemma update_ALL_NEW_outcome t key sets w :
  match dynamoDb_update_ALL_NEW t key sets w with
  | (Ok Attributes, w') =>
      ∃ k, key_string key = Some k
           ∧ Attributes
             = list_to_map sets ∪ default (key_only t k) (table t w !! k)
           ∧ tables w' =
             tables (set_table t (<[k := Attributes]> (table t w)) w)
  | (Throw _, w') => tables w' = tables w
  end.
Proof.
  unfold dynamoDb_update_ALL_NEW.
  match goal with
  | |- context [service ?call w] =>
      destruct (service_cases call w)
        as [[e ->]|(w0 & Ht & _ & _ & _ & _ & ->)]; [done|]
  end.
  destruct (key_string key) as [k|]; [|done].
  case_bool_decide; [done|]. simpl.
  exists k. split; [done|].
  rewrite (table_of_tables t _ _ Ht). split; [done|].
  by apply tables_set_table.
Qed.

Lemma update_ALL_NEW_run t key k sets w :
  faults w = [] → key_string key = Some k → (JUndefined ∉ sets.*2) →
  dynamoDb_update_ALL_NEW t key sets w
  = (Ok (list_to_map sets ∪ default (key_only t k) (table t w !! k)),
     set_table t
       (<[k := list_to_map sets ∪ default (key_only t k) (table t w !! k)]>
          (table t w)) w).
Proof.
  intros Hf Hk Hdef. unfold dynamoDb_update_ALL_NEW.
  by rewrite service_nofault, Hk, bool_decide_eq_false_2.
Qed.

Lemma keeps_update_ALL_NEW {X} (view : World -> X) t key sets :
  (∀ f w, view (set_faults f w) = view w) →
  (∀ m w, view (set_table t m w) = view w) →
  keeps view (dynamoDb_update_ALL_NEW t key sets).
Proof.
  intros Hf Ht. apply keeps_service; [done|].
  destruct (key_string _); [|by apply keeps_throw].
  case_bool_decide; [by apply keeps_throw|].
  intros w. apply Ht.
Qed.

Ltac keeps_queue_sync :=
  repeat first
    [ apply keeps_queue_uuidv4 | apply keeps_queue_toISOString
    | by apply keeps_internalFailure
    | (apply keeps_put; [done|by intros []])
    | (apply keeps_update_ALL_NEW; [done|by intros []])
    | keeps_step; try done ].

(** X13. The synchronous mutating handlers never publish: whatever the
    request and the faults, the queue is as it was. *)
Theorem sync_handlers_never_publish uuid iso event w :
  queue (Sync.createOrganization uuid iso event w).2 = queue w
  ∧ queue (Sync.createOrUpdateUser uuid iso event w).2 = queue w
  ∧ queue (Sync.updateOrganization iso event w).2 = queue w.
Proof.
  split; [|split]; revert w.
  - change (keeps queue (Sync.createOrganization uuid iso event)).
    unfold Sync.createOrganization. keeps_queue_sync.
  - change (keeps queue (Sync.createOrUpdateUser uuid iso event)).
    unfold Sync.createOrUpdateUser. keeps_queue_sync.
  - change (keeps queue (Sync.updateOrganization iso event)).
    unfold Sync.updateOrganization. keeps_queue_sync.
Qed.

(** X14. The synchronous POST /organizations keeps Organization names
    unique, whatever the request and whatever faults the store raises. *)
Theorem sync_createOrganization_keeps_names uuid iso event w :
  namesUnique (organizations w) →
  namesUnique (organizations (Sync.createOrganization uuid iso event w).2).
Proof.
  intros Hinv. unfold Sync.createOrganization, try_catch, bind.
  destruct (body event) as [|[v|o]]; simpl; [done| |].
  - by destruct v.
  - fold_prop.
    destruct (missing (prop o "name")) eqn:Hname; simpl; [done|].
    destruct (missing (prop o "description")); simpl; [done|].
    pose proof (scan_outcome ORGANIZATIONS_TABLE "name" (prop o "name") w)
      as Hscan.
    destruct (dynamoDb_scan _ _ _ w) as [[Items|e] w1]; simpl.
    2: { by rewrite (table_of_tables ORGANIZATIONS_TABLE _ _ Hscan
                       : organizations w1 = _). }
    destruct Hscan as (-> & Ht1 & Hq1).
    assert (organizations w1 = organizations w) as Ho1
      by apply (table_of_tables ORGANIZATIONS_TABLE _ _ Ht1).
    destruct (filter _ _) as [|first more] eqn:Hitems; simpl;
      [|by rewrite Ho1].
    match goal with
    | |- context [dynamoDb_put ?t ?item ?w0] =>
        pose proof (put_outcome t item w0) as Hput;
        destruct (dynamoDb_put t item w0) as [[[]|e] w2];
        set (record := item) in *
    end; simpl.
    + destruct Hput as (k & _ & Ht2).
      rewrite (table_of_tables ORGANIZATIONS_TABLE _ _ Ht2
                 : organizations w2 = _).
      simpl. rewrite Ho1.
      apply (names_insert _ _ _ (prop o "name")); [done| |].
      * intros a Ha.
        assert (prop record "name" = prop o "name") as Hp.
        { subst record. apply prop_object_lookup; [|set_solver].
          simpl. apply (bool_decide_unpack _). by vm_compute. }
        unfold prop at 1 in Hp. by rewrite Ha in Hp.
      * intros k' it Hk' He.
        by apply (scan_nil_free _ _ Hitems k' it Hk').
    + rewrite (table_of_tables ORGANIZATIONS_TABLE _ _ Hput
                 : organizations w2 = _).
      simpl. by rewrite Ho1.
Qed.

(** X15. The synchronous POST on the users route keeps e-mail addresses
    unique per Organization, whatever the request and whatever faults the
    store raises. *)
Theorem sync_createUser_keeps_uniqueness uuid iso event w :
  method event ≠ "PUT" →
  emailsUniquePerOrganization (users w) →
  emailsUniquePerOrganization
    (users (Sync.createOrUpdateUser uuid iso event w).2).
Proof.
  intros Hmethod Hinv.
  unfold Sync.createOrUpdateUser, try_catch, bind, pathParameter.
  destruct (String.eqb_spec (method event) "PUT") as [|_]; [done|].
  destruct (body event) as [|[v|o]]; simpl; [done| |].
  - destruct v; simpl; try done; by rewrite orb_true_r.
  - fold_prop.
    destruct (pathParameters event !! "orgId") as [orgId|]; simpl; [|done].
    destruct (missing (JStr orgId)) eqn:Horg; simpl; [done|].
    destruct (missing (prop o "name")); simpl; [done|].
    destruct (missing (prop o "email")) eqn:Hemail; simpl; [done|].
    pose proof (get_outcome ORGANIZATIONS_TABLE (JStr orgId) w) as Hget.
    destruct (dynamoDb_get _ _ w) as [[found|e] w1]; simpl.
    2: { by rewrite (table_of_tables USERS_TABLE _ _ Hget : users w1 = _). }
    destruct Hget as [_ Ht1].
    assert (users w1 = users w) as Hu1
      by apply (table_of_tables USERS_TABLE _ _ Ht1).
    destruct found as [org|]; simpl; [|by rewrite Hu1].
    pose proof (query_outcome (JStr orgId) (prop o "email") w1) as Hquery.
    destruct (dynamoDb_query_OrgId_index _ _ w1) as [[Items|e] w2]; simpl.
    2: { by rewrite (table_of_tables USERS_TABLE _ _ Hquery
                       : users w2 = users w1), Hu1. }
    destruct Hquery as [(o' & Hkey & ->) Ht2].
    rewrite (key_string_truthy _ Horg) in Hkey. injection Hkey as <-.
    assert (users w2 = users w) as Hu2.
    { by rewrite (table_of_tables USERS_TABLE _ _ Ht2 : users w2 = _). }
    destruct (filter _ _) as [|first more] eqn:Hitems; simpl;
      [|by rewrite Hu2].
    match goal with
    | |- context [dynamoDb_put ?t ?item ?w0] =>
        pose proof (put_outcome t item w0) as Hput;
        destruct (dynamoDb_put t item w0) as [[[]|e] w3];
        set (record := item) in *
    end; simpl.
    + destruct Hput as (k & _ & Ht3).
      rewrite (table_of_tables USERS_TABLE _ _ Ht3 : users w3 = _).
      simpl. rewrite Hu2.
      assert (prop record "orgId" = JStr orgId
              ∧ prop record "email" = prop o "email") as [Hro Hre].
      { subst record.
        split; (apply prop_object_lookup; [|set_solver]);
          simpl; apply (bool_decide_unpack _); by vm_compute. }
      apply (unique_insert _ _ _ (JStr orgId) (prop o "email")); [done| | |].
      * by apply lookup_of_prop.
      * apply lookup_of_prop; [done|by apply truthy_defined].
      * intros k' it _ Hk' Ho He. rewrite Hu1 in Hitems.
        by apply (scan_nil_free _ _ Hitems k' it Hk').
    + rewrite (table_of_tables USERS_TABLE _ _ Hput : users w3 = _).
      simpl. by rewrite Hu2.
Qed.

(** X16. The synchronous update handlers never create a record: whatever
    the request and the faults, a PUT on the users route leaves the set of
    stored [userId]s and the Organizations table as they were, and PUT
    /organizations leaves the set of stored [orgId]s and the Users table as
    they were. *)
Theorem sync_updates_never_create uuid iso event w :
  (method event = "PUT" →
   dom (users (Sync.createOrUpdateUser uuid iso event w).2) = dom (users w)
   ∧ organizations (Sync.createOrUpdateUser uuid iso event w).2
     = organizations w)
  ∧ (dom (organizations (Sync.updateOrganization iso event w).2)
     = dom (organizations w)
     ∧ users (Sync.updateOrganization iso event w).2 = users w).
Proof.
  split.
  - intros Hmethod.
    unfold Sync.createOrUpdateUser, try_catch, bind, pathParameter.
    rewrite Hmethod. simpl.
    destruct (body event) as [|[v|o]]; simpl; [done| |].
    { destruct v; simpl; try done; by rewrite orb_true_r. }
    fold_prop.
    destruct (_ || _ || _); simpl; [done|].
    match goal with
    | |- context [dynamoDb_get ORGANIZATIONS_TABLE ?key w] =>
        pose proof (get_outcome ORGANIZATIONS_TABLE key w) as Hget;
        destruct (dynamoDb_get ORGANIZATIONS_TABLE key w)
          as [[found|e] w1]
    end; simpl.
    2: { by injection Hget as -> ->. }
    destruct Hget as [_ Ht1]. injection Ht1 as Ho1 Hu1.
    destruct found as [org|]; simpl; [|by rewrite Ho1, Hu1].
    destruct (missing (prop o "userId")); simpl; [by rewrite Ho1, Hu1|].
    pose proof (get_outcome USERS_TABLE (prop o "userId") w1) as Hget.
    destruct (dynamoDb_get USERS_TABLE _ w1) as [[found|e] w2]; simpl.
    2: { injection Hget as -> ->. by rewrite Ho1, Hu1. }
    destruct Hget as [(k & Hk & ->) Ht2]. injection Ht2 as Ho2 Hu2.
    simpl. destruct (users w1 !! k) as [Item|] eqn:Hfound; simpl;
      [|by rewrite Ho2, Hu2, Ho1, Hu1].
    destruct (negb _); simpl; [by rewrite Ho2, Hu2, Ho1, Hu1|].
    match goal with
    | |- context [dynamoDb_update_ALL_NEW ?t ?key ?sets ?w0] =>
        pose proof (update_ALL_NEW_outcome t key sets w0) as Hupd;
        destruct (dynamoDb_update_ALL_NEW t key sets w0)
          as [[Attributes|e] w3]
    end; simpl.
    + destruct Hupd as (k' & Hk' & _ & Ht3).
      assert (k' = k) as -> by congruence.
      injection Ht3 as Ho3 Hu3. simpl in Ho3, Hu3.
      rewrite Ho3, Hu3, Ho2, Hu2, Ho1. split; [|done].
      rewrite dom_insert_lookup_L; [by rewrite Hu1|by rewrite Hfound].
    + injection Hupd as Ho3 Hu3. simpl in Ho3, Hu3.
      by rewrite Ho3, Hu3, Ho2, Hu2, Ho1, Hu1.
  - unfold Sync.updateOrganization, try_catch, bind.
    destruct (body event) as [|[v|o]]; simpl; [done| |].
    { by destruct v. }
    fold_prop.
    destruct (missing (prop o "orgId")); simpl; [done|].
    destruct (_ && _); simpl; [done|].
    pose proof (get_outcome ORGANIZATIONS_TABLE (prop o "orgId") w) as Hget.
    destruct (dynamoDb_get ORGANIZATIONS_TABLE _ w) as [[found|e] w1];
      simpl.
    2: { by injection Hget as -> ->. }
    destruct Hget as [(k & Hk & ->) Ht1]. injection Ht1 as Ho1 Hu1.
    simpl. destruct (organizations w !! k) as [Item|] eqn:Hfound; simpl;
      [|by rewrite Ho1, Hu1].
    match goal with
    | |- context [dynamoDb_update_ALL_NEW ?t ?key ?sets ?w0] =>
        pose proof (update_ALL_NEW_outcome t key sets w0) as Hupd;
        destruct (dynamoDb_update_ALL_NEW t key sets w0)
          as [[Attributes|e] w2]
    end; simpl.
    + destruct Hupd as (k' & Hk' & _ & Ht2).
      assert (k' = k) as -> by congruence.
      injection Ht2 as Ho2 Hu2. simpl in Ho2, Hu2.
      rewrite Ho2, Hu2, Ho1, Hu1. split; [|done].
      by rewrite dom_insert_lookup_L; [|rewrite Hfound].
    + injection Hupd as Ho2 Hu2. simpl in Ho2, Hu2.
      by rewrite Ho2, Hu2, Ho1, Hu1.
Qed.

(** X17. The synchronous POST /organizations on a JSON-object body, with
    the store answering: 400 when [name] or [description] is missing and
    409 when a stored Organization has the [name], the world unchanged in
    both cases; otherwise 201, the record is in the table at once under a
    newly drawn [orgId] (no queue involved), the response carries that very
    record, and a read of the [orgId] right after answers 200 with it. *)
Theorem sync_createOrganization_cases uuid iso event read
    (o : gmap string JsVal) w :
  body event = Text (Fields o) →
  let name := prop o "name" in
  let description := prop o "description" in
  let out := Sync.createOrganization uuid iso event w in
  (missing name || missing description = true →
   out = (Ok (buildReply 400 BMessage), w))
  ∧ (missing name || missing description = false → faults w = [] →
     (∃ k item, organizations w !! k = Some item
                ∧ item !! "name" = Some name) →
     out = (Ok (buildReply 409 BMessage), w))
  ∧ (missing name || missing description = false → faults w = [] →
     (∀ k item, organizations w !! k = Some item →
                item !! "name" ≠ Some name) →
     uuid (entropy w) ≠ "" →
     pathParameters read !! "orgId" = Some (uuid (entropy w)) →
     let orgId := uuid (entropy w) in
     let record :=
       object [("orgId", JStr orgId); ("name", name);
               ("description", description);
               ("createdAt", JStr (iso (clock w)));
               ("updatedAt", JStr (iso (S (clock w))))] in
     out.1 = Ok (buildReply 201 (BOrganization true record))
     ∧ organizations out.2 = <[orgId := record]> (organizations w)
     ∧ users out.2 = users w
     ∧ (getOrganization read out.2).1
       = Ok (buildReply 200 (BOrganization false record))).
Proof.
  intros Hbody name description out. subst out.
  unfold Sync.createOrganization, try_catch, bind. rewrite Hbody. simpl.
  fold_prop. fold name description.
  split; [|split].
  - by intros ->.
  - intros -> Hf (k & item & Hk & Hname).
    rewrite scan_run by done. simpl.
    by rewrite (scan_nonempty _ _ k item Hk Hname).
  - intros -> Hf Hfree Hid Hread.
    rewrite scan_run by done. simpl.
    rewrite scan_empty by (intros k item Hk; by apply (Hfree k)). simpl.
    assert (key_string (JStr (uuid (entropy w))) = Some (uuid (entropy w)))
      as Hkey by (by apply key_string_truthy, missing_path_segment).
    rewrite (put_run _ _ (uuid (entropy w))); [|done| |done].
    2: { rewrite prop_object_cons. simpl. by rewrite Hkey. }
    simpl. split; [done|]. split; [done|]. split; [done|].
    unfold getOrganization, try_catch, bind, pathParameter.
    rewrite Hread. simpl. rewrite missing_path_segment by done.
    rewrite (get_run _ _ (uuid (entropy w))) by done. simpl.
    by rewrite lookup_insert_eq.
Qed.

(** X18. The synchronous PUT on the users route checks that the target
    belongs to the Organization of the path.  For an existing Organization,
    [name], [email] and a [userId] present and the store answering: when no
    User is stored under [userId], or the stored one has another [orgId],
    it answers 404 and the world is unchanged; when the stored User has the
    [orgId] of the path, it answers 200 with the updated record, which is
    the stored one with [name], [email] and [updatedAt] (a clock reading)
    replaced and every other attribute as it was. *)
Theorem sync_updateUser_checks_membership uuid iso event
    (o : gmap string JsVal) orgId k w :
  method event = "PUT" →
  pathParameters event !! "orgId" = Some orgId → orgId ≠ "" →
  body event = Text (Fields o) →
  missing (prop o "name") = false →
  missing (prop o "email") = false →
  prop o "userId" = JStr k → k ≠ "" →
  faults w = [] →
  is_Some (organizations w !! orgId) →
  let out := Sync.createOrUpdateUser uuid iso event w in
  ((∀ u, users w !! k = Some u → prop u "orgId" ≠ JStr orgId) →
   out = (Ok (buildReply 404 BMessage), w))
  ∧ (∀ u, users w !! k = Some u → prop u "orgId" = JStr orgId →
       let updated :=
         <["name" := prop o "name"]>
           (<["email" := prop o "email"]>
              (<["updatedAt" := JStr (iso (clock w))]> u)) in
       out.1 = Ok (buildReply 200 (BUser true updated))
       ∧ users out.2 = <[k := updated]> (users w)
       ∧ organizations out.2 = organizations w
       ∧ ∀ a, a ≠ "name" → a ≠ "email" → a ≠ "updatedAt" →
              updated !! a = u !! a).
Proof.
  intros Hmethod Hpath Horg Hbody Hname Hemail Hid Hk Hf [org Hget] out.
  subst out.
  unfold Sync.createOrUpdateUser, try_catch, bind, pathParameter.
  rewrite Hbody, Hpath, Hmethod. simpl. fold_prop.
  rewrite (missing_path_segment _ Horg), Hname, Hemail, Hid. simpl.
  rewrite (get_run _ _ orgId)
    by (try done; by apply key_string_truthy, missing_path_segment).
  simpl. rewrite Hget, (missing_path_segment _ Hk). simpl.
  rewrite (get_run _ _ k)
    by (try done; by apply key_string_truthy, missing_path_segment).
  simpl. split.
  - intros Hother.
    destruct (users w !! k) as [u|] eqn:Hu; simpl; [|done].
    by rewrite bool_decide_eq_false_2 by (by apply Hother).
  - intros u Hu Hscope. rewrite Hu. simpl.
    rewrite bool_decide_eq_true_2 by done. simpl.
    rewrite (update_ALL_NEW_run _ _ k);
      [|done|by apply key_string_truthy, missing_path_segment|].
    2: { simpl. rewrite !elem_of_cons, elem_of_nil.
         intros [Hx|[Hx|[Hx|[]]]]; try done;
           by (eapply truthy_defined; [|done]). }
    simpl. rewrite Hu. simpl.
    rewrite <- !insert_union_l, (left_id_L ∅ (∪)).
    split; [done|]. split; [done|]. split; [done|].
    intros a H1 H2 H3. by rewrite !lookup_insert_ne.
Qed.

Lemma updateExpression_defined first second v1 v2 stamp :
  stamp ≠ JUndefined →
  JUndefined ∉ (updateExpression first second v1 v2 stamp).*2.
Proof.
  intros Hstamp. unfold updateExpression.
  rewrite !fmap_app, !elem_of_app. intros [H|[H|H]].
  - destruct (truthy v1) eqn:E; simpl in H; [|by apply elem_of_nil in H].
    apply list_elem_of_singleton in H. by rewrite <- H in E.
  - destruct (truthy v2) eqn:E; simpl in H; [|by apply elem_of_nil in H].
    apply list_elem_of_singleton in H. by rewrite <- H in E.
  - simpl in H. apply list_elem_of_singleton in H. by apply Hstamp.
Qed.

(** The value the SET clauses give an attribute, if they name it. *)
Lemma updateExpression_lookup first second v1 v2 stamp a :
  first ≠ second → first ≠ "updatedAt" → second ≠ "updatedAt" →
  list_to_map (M := gmap string JsVal)
    (updateExpression first second v1 v2 stamp) !! a
  = if decide (a = "updatedAt") then Some stamp
    else if decide (a = first) then (if truthy v1 then Some v1 else None)
    else if decide (a = second) then (if truthy v2 then Some v2 else None)
    else None.
Proof.
  intros H12 H1 H2. unfold updateExpression.
  destruct (decide (a = "updatedAt")) as [->|Hu];
    [|destruct (decide (a = first)) as [->|Hf];
      [|destruct (decide (a = second)) as [->|Hs]]];
    destruct (truthy v1), (truthy v2); simpl;
    rewrite ?lookup_insert_eq, ?lookup_insert_ne, ?lookup_insert_eq,
      ?lookup_insert_ne, ?lookup_insert_eq, ?lookup_empty by done;
    done.
Qed.

(** X19. The synchronous PUT /organizations on a JSON-object body with a
    string [orgId] and at least one of [name] and [description], the store
    answering: 404 and an unchanged world when no Organization is stored
    under [orgId]; otherwise 200 with the record as the update leaves it,
    which is also what the table now holds: [updatedAt] is the clock
    reading, [name] and [description] are those of the request where the
    request has them, and every other attribute is as it was. *)
Theorem sync_updateOrganization_cases iso event (o : gmap string JsVal) k w :
  body event = Text (Fields o) →
  prop o "orgId" = JStr k → k ≠ "" →
  missing (prop o "name") && missing (prop o "description") = false →
  faults w = [] →
  let out := Sync.updateOrganization iso event w in
  (organizations w !! k = None → out = (Ok (buildReply 404 BMessage), w))
  ∧ (∀ org, organizations w !! k = Some org →
       ∃ updated,
         out.1 = Ok (buildReply 200 (BOrganization true updated))
         ∧ organizations out.2 = <[k := updated]> (organizations w)
         ∧ users out.2 = users w
         ∧ updated !! "updatedAt" = Some (JStr (iso (clock w)))
         ∧ (missing (prop o "name") = false →
            updated !! "name" = Some (prop o "name"))
         ∧ (missing (prop o "description") = false →
            updated !! "description" = Some (prop o "description"))
         ∧ ∀ a, a ≠ "updatedAt" →
                (a = "name" → missing (prop o "name") = true) →
                (a = "description" →
                 missing (prop o "description") = true) →
                updated !! a = org !! a).
Proof.
  intros Hbody Hid Hk Hsome Hf out. subst out.
  assert (key_string (JStr k) = Some k) as Hkey
    by (by apply key_string_truthy, missing_path_segment).
  unfold Sync.updateOrganization, try_catch, bind. rewrite Hbody. simpl.
  fold_prop. rewrite Hid, (missing_path_segment _ Hk), Hsome. simpl.
  rewrite (get_run _ _ k) by done. simpl. split.
  - by intros ->.
  - intros org Horg. rewrite Horg. simpl.
    rewrite (update_ALL_NEW_run _ _ k);
      [|done|done|by apply updateExpression_defined].
    simpl. rewrite Horg. simpl.
    eexists. split; [reflexivity|]. split; [done|]. split; [done|].
    split; [|split; [|split]].
    + rewrite lookup_union, updateExpression_lookup by done.
      rewrite decide_True by done. by destruct (org !! _).
    + intros Hname. rewrite lookup_union, updateExpression_lookup by done.
      rewrite decide_False, decide_True by done.
      rewrite (truthy_of_missing _ Hname). by destruct (org !! _).
    + intros Hdesc. rewrite lookup_union, updateExpression_lookup by done.
      rewrite !decide_False, decide_True by done.
      rewrite (truthy_of_missing _ Hdesc). by destruct (org !! _).
    + intros a Hstamp Hname Hdesc.
      rewrite lookup_union, updateExpression_lookup by done.
      rewrite decide_False by done.
      unfold missing in Hname, Hdesc.
      destruct (decide (a = "name")) as [->|];
        [destruct (truthy (prop o "name"));
         [by specialize (Hname eq_refl)|by rewrite (left_id_L None _)]|].
      destruct (decide (a = "description")) as [->|];
        [destruct (truthy (prop o "description"));
         [by specialize (Hdesc eq_refl)|by rewrite (left_id_L None _)]|].
      by rewrite (left_id_L None _).
Qed.

(** ** The queue-backed revision against the synchronous one *)






(** ** The further theorems at concrete inputs *)

Lemma namesUnique_singleton k item : namesUnique {[k := item]}.
Proof.
  intros k1 k2 o1 o2 name H1 H2 _ _.
  apply lookup_singleton_Some in H1 as [<- _].
  by apply lookup_singleton_Some in H2 as [<- _].
Qed.

Lemma emailsUnique_singleton k item :
  emailsUniquePerOrganization {[k := item]}.
Proof.
  intros k1 k2 u1 u2 org email H1 H2 _ _ _ _.
  apply lookup_singleton_Some in H1 as [<- _].
  by apply lookup_singleton_Some in H2 as [<- _].
Qed.

Lemma keyed_singleton k item :
  item !! "userId" = Some (JStr k) → keyed {[k := item]}.
Proof.
  intros Hitem k' u Hk'. by apply lookup_singleton_Some in Hk' as [<- <-].
Qed.

(** [intent_without_data_fails_batch] on a createUser message without
    [data], followed by an Intent that would otherwise be applied. *)
Lemma intent_without_data_fails_batch_witness :
  let rest := [intent "createOrganization" acmeData] in
  recognized (operationOf dataless) = true
  ∧ (dataless !! "data" = None
     ∨ dataless !! "data" = Some (JScalar JNull))
  ∧ processSqsMessages (Text (Fields dataless) :: rest) emptyWorld
    = (Throw TypeError,
       set_console
         (console emptyWorld
            ++ [ErrorSqsRecord (Text (Fields dataless)) TypeError])
         emptyWorld).
Proof.
  intros rest.
  assert (recognized (operationOf dataless) = true) as Hop by reflexivity.
  assert (dataless !! "data" = None
          ∨ dataless !! "data" = Some (JScalar JNull)) as Hdata
    by (left; reflexivity).
  split; [exact Hop|]. split; [exact Hdata|].
  exact (intent_without_data_fails_batch dataless rest emptyWorld Hop Hdata).
Defined.


(** [getAllOrganizations_lists_store] on the store that holds Acme. *)
Lemma getAllOrganizations_lists_store_witness :
  faults acmeWorld = []
  ∧ ∃ withMessage items,
      getAllOrganizations getAcme acmeWorld
      = (Ok (buildReply 200 (BOrganizations withMessage items)), acmeWorld)
      ∧ (withMessage = true ↔ organizations acmeWorld = ∅)
      ∧ length items = size (organizations acmeWorld)
      ∧ ∀ item, item ∈ items ↔ ∃ k, organizations acmeWorld !! k = Some item.
Proof.
  split; [reflexivity|].
  exact (getAllOrganizations_lists_store getAcme acmeWorld eq_refl).
Defined.

(** [getAllUsersByOrganization_scoped] on the Users of [o1]. *)
Lemma getAllUsersByOrganization_scoped_witness :
  pathParameters getAcme !! "orgId" = Some "o1"
  ∧ "o1" ≠ ""
  ∧ faults acmeWorld = []
  ∧ is_Some (organizations acmeWorld !! "o1")
  ∧ ∃ withMessage items,
      getAllUsersByOrganization getAcme acmeWorld
      = (Ok (buildReply 200 (BUsers withMessage items)), acmeWorld)
      ∧ (withMessage = true ↔ items = [])
      ∧ ∀ item, item ∈ items
                ↔ item !! "orgId" = Some (JStr "o1")
                  ∧ ∃ k, users acmeWorld !! k = Some item.
Proof.
  assert (pathParameters getAcme !! "orgId" = Some "o1") as Hpath
    by reflexivity.
  assert ("o1" ≠ "") as Ho by discriminate.
  assert (is_Some (organizations acmeWorld !! "o1")) as Horg
    by (exists acmeData; reflexivity).
  split; [exact Hpath|]. split; [exact Ho|]. split; [reflexivity|].
  split; [exact Horg|].
  exact (proj2 (getAllUsersByOrganization_scoped getAcme "o1" acmeWorld
                  Hpath Ho eq_refl) Horg).
Defined.

(** [orgless_user_unreachable] on the record [ghost], which has no
    [orgId]. *)
Lemma orgless_user_unreachable_witness :
  users ghostWorld !! "ghost" = Some ghostRecord
  ∧ ghostRecord !! "orgId" = None
  ∧ pathParameters getGhost !! "userId" = Some "ghost"
  ∧ (∀ r, (getUser getGhost ghostWorld).1 = Ok r → statusCode r ≠ 200)
  ∧ ∀ withMessage items,
      (getAllUsersByOrganization getGhost ghostWorld).1
      = Ok (buildReply 200 (BUsers withMessage items)) →
      ghostRecord ∉ items.
Proof.
  assert (users ghostWorld !! "ghost" = Some ghostRecord) as Hk
    by reflexivity.
  assert (ghostRecord !! "orgId" = None) as Horgless by reflexivity.
  assert (pathParameters getGhost !! "userId" = Some "ghost") as Hpath
    by reflexivity.
  split; [exact Hk|]. split; [exact Horgless|]. split; [exact Hpath|].
  split.
  - exact (proj1 (orgless_user_unreachable getGhost ghostWorld "ghost"
                    ghostRecord Hk Horgless) Hpath).
  - exact (proj2 (orgless_user_unreachable getGhost ghostWorld "ghost"
                    ghostRecord Hk Horgless)).
Defined.



(** [createOrganization_keeps_names] on a second request for Acme's name,
    sent to the store that holds Acme. *)
Lemma createOrganization_keeps_names_witness :
  queue acmeWorld = []
  ∧ namesUnique (organizations acmeWorld)
  ∧ namesUnique
      (organizations
         (submitAndApply (createOrganization sampleUuid sampleIso) postAcme
            acmeWorld).2).
Proof.
  assert (namesUnique (organizations acmeWorld)) as Hinv
    by apply namesUnique_singleton.
  split; [reflexivity|]. split; [exact Hinv|].
  exact (createOrganization_keeps_names sampleUuid sampleIso postAcme
           acmeWorld eq_refl Hinv).
Defined.

(** [createUser_keeps_uniqueness] on a new User of [o1]. *)
Lemma createUser_keeps_uniqueness_witness :
  method postBen = "POST"
  ∧ faults acmeWorld = []
  ∧ queue acmeWorld = []
  ∧ emailsUniquePerOrganization (users acmeWorld)
  ∧ emailsUniquePerOrganization
      (users
         (submitAndApply (createOrUpdateUser sampleUuid sampleIso) postBen
            acmeWorld).2).
Proof.
  assert (emailsUniquePerOrganization (users acmeWorld)) as Hinv
    by apply emailsUnique_singleton.
  split; [reflexivity|]. split; [reflexivity|]. split; [reflexivity|].
  split; [exact Hinv|].
  exact (createUser_keeps_uniqueness sampleUuid sampleIso postBen acmeWorld
           eq_refl eq_refl eq_refl Hinv).
Defined.

(** [updateUser_keeps_uniqueness] on a PUT for the User [u1] of [o1]. *)
Lemma updateUser_keeps_uniqueness_witness :
  method putAnna = "PUT"
  ∧ body putAnna = Text (Fields annaRequest)
  ∧ prop annaRequest "userId" = JStr "u1"
  ∧ pathParameters putAnna !! "orgId" = Some "o1"
  ∧ users acmeWorld !! "u1" = Some annData
  ∧ annData !! "orgId" = Some (JStr "o1")
  ∧ keyed (users acmeWorld)
  ∧ emailsUniquePerOrganization (users acmeWorld)
  ∧ emailsUniquePerOrganization
      (users
         (submitAndApply (createOrUpdateUser sampleUuid sampleIso) putAnna
            acmeWorld).2).
Proof.
  assert (keyed (users acmeWorld)) as Hkeyed
    by (apply keyed_singleton; reflexivity).
  assert (emailsUniquePerOrganization (users acmeWorld)) as Hinv
    by apply emailsUnique_singleton.
  split; [reflexivity|]. split; [reflexivity|]. split; [reflexivity|].
  split; [reflexivity|]. split; [reflexivity|]. split; [reflexivity|].
  split; [exact Hkeyed|]. split; [exact Hinv|].
  exact (updateUser_keeps_uniqueness sampleUuid sampleIso putAnna annaRequest
           "u1" annData "o1" acmeWorld eq_refl eq_refl eq_refl eq_refl
           eq_refl ltac:(discriminate) eq_refl eq_refl eq_refl Hkeyed Hinv).
Defined.

(** [sync_createOrganization_keeps_names] on a second request for Acme's
    name. *)
Lemma sync_createOrganization_keeps_names_witness :
  namesUnique (organizations acmeWorld)
  ∧ namesUnique
      (organizations
         (Sync.createOrganization sampleUuid sampleIso postAcme acmeWorld).2).
Proof.
  assert (namesUnique (organizations acmeWorld)) as Hinv
    by apply namesUnique_singleton.
  split; [exact Hinv|].
  exact (sync_createOrganization_keeps_names sampleUuid sampleIso postAcme
           acmeWorld Hinv).
Defined.

(** [sync_createUser_keeps_uniqueness] on a new User of [o1]. *)
Lemma sync_createUser_keeps_uniqueness_witness :
  method postBen ≠ "PUT"
  ∧ emailsUniquePerOrganization (users acmeWorld)
  ∧ emailsUniquePerOrganization
      (users
         (Sync.createOrUpdateUser sampleUuid sampleIso postBen acmeWorld).2).
Proof.
  assert (method postBen ≠ "PUT") as Hmethod by discriminate.
  assert (emailsUniquePerOrganization (users acmeWorld)) as Hinv
    by apply emailsUnique_singleton.
  split; [exact Hmethod|]. split; [exact Hinv|].
  exact (sync_createUser_keeps_uniqueness sampleUuid sampleIso postBen
           acmeWorld Hmethod Hinv).
Defined.

(** [sync_updates_never_create] on a PUT for the unknown User [ghost]. *)
Lemma sync_updates_never_create_witness :
  method ghostPut = "PUT"
  ∧ dom (users
           (Sync.createOrUpdateUser sampleUuid sampleIso ghostPut acmeWorld).2)
    = dom (users acmeWorld)
  ∧ organizations
      (Sync.createOrUpdateUser sampleUuid sampleIso ghostPut acmeWorld).2
    = organizations acmeWorld.
Proof.
  assert (method ghostPut = "PUT") as Hmethod by reflexivity.
  split; [exact Hmethod|].
  exact (proj1 (sync_updates_never_create sampleUuid sampleIso ghostPut
                  acmeWorld) Hmethod).
Defined.

(** [sync_createOrganization_cases] on the request for Acme: refused by
    the store that holds Acme, stored at once by an empty store. *)
Lemma sync_createOrganization_cases_witness :
  let name := prop acmeRequest "name" in
  let description := prop acmeRequest "description" in
  let orgId := sampleUuid (entropy emptyWorld) in
  let out := Sync.createOrganization sampleUuid sampleIso postAcme emptyWorld in
  let record :=
    object [("orgId", JStr orgId); ("name", name);
            ("description", description);
            ("createdAt", JStr (sampleIso (clock emptyWorld)));
            ("updatedAt", JStr (sampleIso (S (clock emptyWorld))))] in
  body postAcme = Text (Fields acmeRequest)
  ∧ missing name || missing description = false
  ∧ (∃ k item, organizations acmeWorld !! k = Some item
               ∧ item !! "name" = Some name)
  ∧ Sync.createOrganization sampleUuid sampleIso postAcme acmeWorld
    = (Ok (buildReply 409 BMessage), acmeWorld)
  ∧ orgId ≠ ""
  ∧ pathParameters getFirst !! "orgId" = Some orgId
  ∧ out.1 = Ok (buildReply 201 (BOrganization true record))
  ∧ organizations out.2 = <[orgId := record]> (organizations emptyWorld)
  ∧ users out.2 = users emptyWorld
  ∧ (getOrganization getFirst out.2).1
    = Ok (buildReply 200 (BOrganization false record)).
Proof.
  intros name description orgId out record.
  assert (body postAcme = Text (Fields acmeRequest)) as Hbody by reflexivity.
  assert (missing name || missing description = false) as Hpresent
    by reflexivity.
  assert (∃ k item, organizations acmeWorld !! k = Some item
                    ∧ item !! "name" = Some name) as Htaken.
  { exists "o1", acmeData. split; reflexivity. }
  assert (∀ k item, organizations emptyWorld !! k = Some item →
                    item !! "name" ≠ Some name) as Hfree.
  { intros k item Hk. simpl in Hk. rewrite lookup_empty in Hk.
    discriminate Hk. }
  assert (orgId ≠ "") as Hid
    by (intros Hempty; vm_compute in Hempty; discriminate Hempty).
  assert (pathParameters getFirst !! "orgId" = Some orgId) as Hread
    by (vm_compute; reflexivity).
  split; [exact Hbody|]. split; [exact Hpresent|]. split; [exact Htaken|].
  split.
  { exact (proj1 (proj2 (sync_createOrganization_cases sampleUuid sampleIso
                           postAcme getFirst acmeRequest acmeWorld Hbody))
             Hpresent eq_refl Htaken). }
  split; [exact Hid|]. split; [exact Hread|].
  exact (proj2 (proj2 (sync_createOrganization_cases sampleUuid sampleIso
                         postAcme getFirst acmeRequest emptyWorld Hbody))
           Hpresent eq_refl Hfree Hid Hread).
Defined.

(** [sync_updateUser_checks_membership] on a PUT for the User [u1] of
    [o1]. *)
Lemma sync_updateUser_checks_membership_witness :
  let out := Sync.createOrUpdateUser sampleUuid sampleIso putAnna acmeWorld in
  let updated :=
    <["name" := prop annaRequest "name"]>
      (<["email" := prop annaRequest "email"]>
         (<["updatedAt" := JStr (sampleIso (clock acmeWorld))]> annData)) in
  method putAnna = "PUT"
  ∧ pathParameters putAnna !! "orgId" = Some "o1"
  ∧ body putAnna = Text (Fields annaRequest)
  ∧ prop annaRequest "userId" = JStr "u1"
  ∧ is_Some (organizations acmeWorld !! "o1")
  ∧ users acmeWorld !! "u1" = Some annData
  ∧ prop annData "orgId" = JStr "o1"
  ∧ out.1 = Ok (buildReply 200 (BUser true updated))
  ∧ users out.2 = <["u1" := updated]> (users acmeWorld)
  ∧ organizations out.2 = organizations acmeWorld
  ∧ ∀ a, a ≠ "name" → a ≠ "email" → a ≠ "updatedAt" →
         updated !! a = annData !! a.
Proof.
  intros out updated.
  assert (method putAnna = "PUT") as Hmethod by reflexivity.
  assert (pathParameters putAnna !! "orgId" = Some "o1") as Hpath
    by reflexivity.
  assert (body putAnna = Text (Fields annaRequest)) as Hbody by reflexivity.
  assert (prop annaRequest "userId" = JStr "u1") as Hid by reflexivity.
  assert (is_Some (organizations acmeWorld !! "o1")) as Horg
    by (exists acmeData; reflexivity).
  assert (users acmeWorld !! "u1" = Some annData) as Hu by reflexivity.
  assert (prop annData "orgId" = JStr "o1") as Hscope by reflexivity.
  split; [exact Hmethod|]. split; [exact Hpath|]. split; [exact Hbody|].
  split; [exact Hid|]. split; [exact Horg|]. split; [exact Hu|].
  split; [exact Hscope|].
  exact (proj2 (sync_updateUser_checks_membership sampleUuid sampleIso putAnna
                  annaRequest "o1" "u1" acmeWorld Hmethod Hpath
                  ltac:(discriminate) Hbody eq_refl eq_refl Hid
                  ltac:(discriminate) eq_refl Horg)
           annData Hu Hscope).
Defined.

(** [sync_updateOrganization_cases] on a description-only update of
    [o1]. *)
Lemma sync_updateOrganization_cases_witness :
  let out := Sync.updateOrganization sampleIso putAcme acmeWorld in
  body putAcme = Text (Fields redescribeRequest)
  ∧ prop redescribeRequest "orgId" = JStr "o1"
  ∧ missing (prop redescribeRequest "name")
    && missing (prop redescribeRequest "description") = false
  ∧ organizations acmeWorld !! "o1" = Some acmeData
  ∧ ∃ updated,
      out.1 = Ok (buildReply 200 (BOrganization true updated))
      ∧ organizations out.2 = <["o1" := updated]> (organizations acmeWorld)
      ∧ users out.2 = users acmeWorld
      ∧ updated !! "updatedAt" = Some (JStr (sampleIso (clock acmeWorld)))
      ∧ (missing (prop redescribeRequest "name") = false →
         updated !! "name" = Some (prop redescribeRequest "name"))
      ∧ (missing (prop redescribeRequest "description") = false →
         updated !! "description"
         = Some (prop redescribeRequest "description"))
      ∧ ∀ a, a ≠ "updatedAt" →
             (a = "name" → missing (prop redescribeRequest "name") = true) →
             (a = "description" →
              missing (prop redescribeRequest "description") = true) →
             updated !! a = acmeData !! a.
Proof.
  intros out.
  assert (body putAcme = Text (Fields redescribeRequest)) as Hbody
    by reflexivity.
  assert (prop redescribeRequest "orgId" = JStr "o1") as Hid by reflexivity.
  assert (missing (prop redescribeRequest "name")
          && missing (prop redescribeRequest "description") = false)
    as Hsome by reflexivity.
  assert (organizations acmeWorld !! "o1" = Some acmeData) as Horg
    by reflexivity.
  split; [exact Hbody|]. split; [exact Hid|]. split; [exact Hsome|].
  split; [exact Horg|].
  exact (proj2 (sync_updateOrganization_cases sampleIso putAcme
                  redescribeRequest "o1" acmeWorld Hbody Hid
                  ltac:(discriminate) Hsome eq_refl)
           acmeData Horg).
Defined.


